(** * CUBOS core: reflection's [ConstructibleTrait] and the ECS [World]

    A shallow embedding of

    - [core/src/cubos/core/reflection/traits/constructible.cpp]
      (constructor, [with*Constructor] builders, [size], [alignment],
      [destruct], [defaultConstruct], [copyConstruct], [moveConstruct]);
    - [core/include/cubos/core/ecs/world.hpp] (the template members of
      [World]: [registerResource], [registerComponent], [read], [write],
      [create], [add], [remove], [has]).

    The entity manager, the component manager, the resource manager, the
    query engine and the out-of-line members of [World] ([destroy],
    [isAlive], [pack], [unpack]) are not part of the excerpt; they are
    modelled from the specification and marked as such. *)

From stdpp Require Import gmap strings list fin_maps sorting.

Open Scope N_scope.

(** ** Outcome of code that may hit [CUBOS_ASSERT] *)

(** A computation either completes with a value or is cut short by a
    failed assertion, whose message is kept. *)
Inductive Res (A : Type) : Type :=
  | Ok (a : A)
  | Abort (msg : string).
Arguments Ok {A} a.
Arguments Abort {A} msg.

Definition res_bind {A B : Type} (r : Res A) (k : A → Res B) : Res B :=
  match r with
  | Ok a => k a
  | Abort msg => Abort msg
  end.

Notation "x ←r e1 ;; e2" := (res_bind e1 (fun x => e2))
  (at level 100, e1 at next level, e2 at level 200, right associativity,
   format "x  ←r  e1 ;;  '/' e2").

(** Modelled from the spec: the macro [CUBOS_ASSERT] of [cubos/core/log.hpp]
    is not part of the excerpt.  On a violated condition "the process asserts
    and terminates": the rest of the computation [k] is not run. *)
Definition CUBOS_ASSERT {A : Type} (cond : bool) (msg : string) (k : Res A) : Res A :=
  if cond then k else Abort msg.

Definition is_ok {A : Type} (r : Res A) : bool :=
  match r with Ok _ => true | Abort _ => false end.

(** Two computations end alike: with the same value, or both cut short
    by an assertion. *)
Definition same_outcome {A : Type} (r1 r2 : Res A) : Prop :=
  match r1, r2 with
  | Ok a, Ok b => a = b
  | Abort _, Abort _ => True
  | _, _ => False
  end.

(** ** [std::size_t] *)

(** [std::size_t] is taken to be 64 bits wide; subtraction wraps around. *)
Definition SIZE_BITS : N := 64.
Definition SIZE_MOD : N := 2 ^ SIZE_BITS.

Definition size_sub (a b : N) : N := (a + SIZE_MOD - b mod SIZE_MOD) mod SIZE_MOD.

(** ** ConstructibleTrait *)

Module Reflection.

Section Constructible.
(** The memory the type-erased callbacks act on, and addresses in it
    ([void*]). *)
Variable Mem : Type.
Definition Ptr : Type := N.

(** pointer to a function [void(void* instance)] *)
Definition Destructor : Type := Ptr → Mem → Mem.
(** pointer to a function [void(void* instance)] *)
Definition DefaultConstructor : Type := Ptr → Mem → Mem.
(** pointer to a function [void(void* instance, const void* other)] *)
Definition CopyConstructor : Type := Ptr → Ptr → Mem → Mem.
(** pointer to a function [void(void* instance, void* other)] *)
Definition MoveConstructor : Type := Ptr → Ptr → Mem → Mem.

(** The members that [constructible.cpp] reads and writes (the class
    declaration itself is in [constructible.hpp], which is not part of
    the excerpt).  Function pointers are nullable: [None] is [nullptr]. *)
Record ConstructibleTrait : Type := mkConstructibleTrait {
  mSize : N;
  mAlignment : N;
  mDestructor : option Destructor;
  mDefaultConstructor : option DefaultConstructor;
  mCopyConstructor : option CopyConstructor;
  mMoveConstructor : option MoveConstructor
}.

Definition is_null {A : Type} (p : option A) : bool :=
  match p with None => true | Some _ => false end.

(** [ConstructibleTrait::ConstructibleTrait(size, alignment, destructor)].
    The constructor initialises [mSize], [mAlignment] and [mDestructor];
    the three constructor callbacks start out null, which is what the
    assertions of the [with*] setters presuppose. *)
Definition ConstructibleTrait_new (size alignment : N) (destructor : option Destructor)
    : Res ConstructibleTrait :=
  let this := mkConstructibleTrait size alignment destructor None None None in
  CUBOS_ASSERT (0 <? mAlignment this) "Alignment must be positive"
 (CUBOS_ASSERT (N.land (mAlignment this) (size_sub (mAlignment this) 1) =? 0)
               "Alignment must be a power of two"
 (CUBOS_ASSERT (negb (is_null (mDestructor this))) "Destructor must be non-null"
 (Ok this))).

Definition withDefaultConstructor (defaultConstructor : option DefaultConstructor)
    (this : ConstructibleTrait) : Res ConstructibleTrait :=
  CUBOS_ASSERT (is_null (mDefaultConstructor this)) "Default constructor already set"
    (Ok (mkConstructibleTrait (mSize this) (mAlignment this) (mDestructor this)
           defaultConstructor (mCopyConstructor this) (mMoveConstructor this))).

Definition withCopyConstructor (copyConstructor : option CopyConstructor)
    (this : ConstructibleTrait) : Res ConstructibleTrait :=
  CUBOS_ASSERT (is_null (mCopyConstructor this)) "Copy constructor already set"
    (Ok (mkConstructibleTrait (mSize this) (mAlignment this) (mDestructor this)
           (mDefaultConstructor this) copyConstructor (mMoveConstructor this))).

Definition withMoveConstructor (moveConstructor : option MoveConstructor)
    (this : ConstructibleTrait) : Res ConstructibleTrait :=
  CUBOS_ASSERT (is_null (mMoveConstructor this)) "Move constructor already set"
    (Ok (mkConstructibleTrait (mSize this) (mAlignment this) (mDestructor this)
           (mDefaultConstructor this) (mCopyConstructor this) moveConstructor)).

Definition size (this : ConstructibleTrait) : N := mSize this.

Definition alignment (this : ConstructibleTrait) : N := mAlignment this.

(** [destruct] calls through [mDestructor] unconditionally; a call
    through a null pointer does not return. *)
Definition destruct (this : ConstructibleTrait) (instance : Ptr) (mem : Mem) : Res Mem :=
  match mDestructor this with
  | Some d => Ok (d instance mem)
  | None => Abort "call through a null destructor"
  end.

Definition defaultConstruct (this : ConstructibleTrait) (instance : Ptr) (mem : Mem)
    : bool * Mem :=
  match mDefaultConstructor this with
  | Some ctor => (true, ctor instance mem)
  | None => (false, mem)
  end.

Definition copyConstruct (this : ConstructibleTrait) (instance other : Ptr) (mem : Mem)
    : bool * Mem :=
  match mCopyConstructor this with
  | Some ctor => (true, ctor instance other mem)
  | None => (false, mem)
  end.

Definition moveConstruct (this : ConstructibleTrait) (instance other : Ptr) (mem : Mem)
    : bool * Mem :=
  match mMoveConstructor this with
  | Some ctor => (true, ctor instance other mem)
  | None => (false, mem)
  end.
End Constructible.

Arguments mkConstructibleTrait {Mem}.
Arguments mSize {Mem}.
Arguments mAlignment {Mem}.
Arguments mDestructor {Mem}.
Arguments mDefaultConstructor {Mem}.
Arguments mCopyConstructor {Mem}.
Arguments mMoveConstructor {Mem}.
Arguments ConstructibleTrait_new {Mem}.
Arguments withDefaultConstructor {Mem}.
Arguments withCopyConstructor {Mem}.
Arguments withMoveConstructor {Mem}.
Arguments size {Mem}.
Arguments alignment {Mem}.
Arguments destruct {Mem}.
Arguments defaultConstruct {Mem}.
Arguments copyConstruct {Mem}.
Arguments moveConstruct {Mem}.

(** One successful call of a [with*] setter. *)
Inductive setter {Mem : Type} : ConstructibleTrait Mem → ConstructibleTrait Mem → Prop :=
  | set_default c t t' : withDefaultConstructor c t = Ok t' → setter t t'
  | set_copy c t t' : withCopyConstructor c t = Ok t' → setter t t'
  | set_move c t t' : withMoveConstructor c t = Ok t' → setter t t'.

(** The traits that the constructor, followed by any number of successful
    setter calls, can build. *)
Definition built {Mem : Type} (t : ConstructibleTrait Mem) : Prop :=
  ∃ sz al d t0,
    al < SIZE_MOD ∧ ConstructibleTrait_new sz al d = Ok t0 ∧ rtc setter t0 t.

End Reflection.

(** ** Entity-component-system core *)

Module Ecs.

(** A component or resource type [T] is identified by its type name. *)
Abbreviation TypeId := string (only parsing).

(** Modelled from the spec: [Entity::Mask] of [entity_manager.hpp], "a
    fixed-size bitset (capacity = max registered component types)".  Bits
    are read with [N.testbit], set with [N.setbit] and cleared with
    [N.clearbit]; the capacity is taken to cover every ID the registry
    hands out, so that [set] and [test] never go out of range. *)
Abbreviation Mask := N (only parsing).

(** Modelled from the spec: the [Entity] handle of [entity_manager.hpp],
    "identifier = (index: unsigned integer, generation: unsigned integer)".
    The spec gives no width, so neither component wraps around. *)
Record Entity : Type := mkEntity {
  index : nat;
  generation : nat
}.

(** Modelled from the spec: the logger of [cubos/core/log.hpp] is not part
    of the excerpt.  An operation returns, next to its result, the
    diagnostics it writes through [CUBOS_ERROR] ("reported via a logged
    diagnostic").  Trace and debug output ([CUBOS_TRACE], [CUBOS_DEBUG])
    is compiled in or out by [CUBOS_LOG_LEVEL] and carries no state; it is
    not recorded. *)
Inductive Diagnostic : Type :=
  | EntityDoesntExist (index : nat)
  | ResourceAlreadyRegistered (T : TypeId).

(** *** Entity manager *)

(** Modelled from the spec: [EntityManager] ([entity_manager.hpp/.cpp] are
    not part of the excerpt).  Per index it keeps the current generation
    and the component mask; recycled indices wait on a free list. *)
Record EntityData : Type := mkEntityData {
  edGeneration : nat;
  edMask : Mask
}.

(** Modelled from the spec: "index into a dense array of
    generations/masks, free list for recycled indices". *)
Record EntityManager : Type := mkEntityManager {
  mEntities : list EntityData;
  mAvailableEntities : list nat
}.

(** Modelled from the spec: the constructor.  The initial capacity only
    reserves room; no index is handed out yet. *)
Definition EntityManager_new (initialCapacity : nat) : EntityManager :=
  mkEntityManager [] [].

(** Modelled from the spec: "allocates an index (reuse from free list if
    non-empty, else grow backing arrays), sets its mask, returns a handle
    with the index's current generation". *)
Definition EntityManager_create (mask : Mask) (em : EntityManager) : Entity * EntityManager :=
  match mAvailableEntities em with
  | i :: rest =>
      let gen := default 0%nat (edGeneration <$> mEntities em !! i) in
      (mkEntity i gen,
       mkEntityManager
         (alter (fun d => mkEntityData (edGeneration d) mask) i (mEntities em)) rest)
  | [] =>
      let i := length (mEntities em) in
      (mkEntity i 0,
       mkEntityManager (mEntities em ++ [mkEntityData 0 mask]) [])
  end.

(** Modelled from the spec: "compares handle generation to stored
    generation for the index; false for an out-of-range index". *)
Definition EntityManager_isValid (entity : Entity) (em : EntityManager) : bool :=
  match mEntities em !! index entity with
  | Some d => Nat.eqb (edGeneration d) (generation entity)
  | None => false
  end.

(** Modelled from the spec: "no-op if already dead; otherwise clears the
    mask, increments the generation for the index, pushes the index onto
    the free list". *)
Definition EntityManager_destroy (entity : Entity) (em : EntityManager) : EntityManager :=
  if EntityManager_isValid entity em then
    mkEntityManager
      (alter (fun d => mkEntityData (S (edGeneration d)) 0) (index entity) (mEntities em))
      (index entity :: mAvailableEntities em)
  else em.

(** Modelled from the spec: [getMask] and [setMask], "both require the
    entity be valid -- operating on an invalid entity logs/returns a no-op
    failure rather than crashing". *)
Definition EntityManager_getMask (entity : Entity) (em : EntityManager)
    : Mask * list Diagnostic :=
  if EntityManager_isValid entity em then
    (default 0 (edMask <$> mEntities em !! index entity), [])
  else (0, [EntityDoesntExist (index entity)]).

(** Modelled from the spec: [setMask], a no-op on an invalid entity. *)
Definition EntityManager_setMask (entity : Entity) (mask : Mask) (em : EntityManager)
    : EntityManager * list Diagnostic :=
  if EntityManager_isValid entity em then
    (mkEntityManager
       (alter (fun d => mkEntityData (edGeneration d) mask) (index entity) (mEntities em))
       (mAvailableEntities em), [])
  else (em, [EntityDoesntExist (index entity)]).

(** Modelled from the spec: iteration "produces every entity whose current
    generation marks it alive, in index order".  An index is live when it
    has been handed out and is not waiting on the free list. *)
Fixpoint entities_from (i : nat) (ds : list EntityData) (free : list nat) : list Entity :=
  match ds with
  | [] => []
  | d :: ds' =>
      (if bool_decide (i ∈ free) then [] else [mkEntity i (edGeneration d)])
      ++ entities_from (S i) ds' free
  end.

(** Modelled from the spec: the iteration of the entity manager, from
    index 0 upwards. *)
Definition EntityManager_entities (em : EntityManager) : list Entity :=
  entities_from 0 (mEntities em) (mAvailableEntities em).

(** The mask stored at an index (empty where nothing is stored). *)
Definition mask_at (em : EntityManager) (i : nat) : Mask :=
  default 0 (edMask <$> mEntities em !! i).

Section Data.
(** The payload of a component or of a resource: plain data, type-erased
    inside the managers. *)
Variable Data : Type.

(** *** Component manager *)

(** Modelled from the spec: [ComponentManager] ([component_manager.hpp] is
    not part of the excerpt): "a registry mapping stable numeric type IDs
    to polymorphic storage objects", one storage per registered type,
    each "a mapping from entity index to a component value".

    The spec leaves the first ID open.  [World::create] always sets bit 0
    of a new entity's mask (its [ids] array starts with a literal 0), so
    bit 0 belongs to the entity itself and IDs are handed out from 1. *)
Record ComponentManager : Type := mkComponentManager {
  mTypeToIds : gmap string N;
  mStorages : gmap N (gmap nat Data)
}.

(** Modelled from the spec: a registry without types and storages. *)
Definition ComponentManager_new : ComponentManager :=
  mkComponentManager ∅ ∅.

(** The storage behind an ID (empty when there is none). *)
Definition storage_of (cm : ComponentManager) (id : N) : gmap nat Data :=
  default ∅ (mStorages cm !! id).

(** Modelled from the spec: "idempotent allocation of a type ID and an
    empty storage for T"; IDs are "unique, stable, monotonically
    increasing". *)
Definition ComponentManager_registerComponent (T : TypeId) (cm : ComponentManager)
    : ComponentManager :=
  match mTypeToIds cm !! T with
  | Some _ => cm
  | None =>
      let id := N.of_nat (size (mTypeToIds cm)) + 1 in
      mkComponentManager (<[T := id]> (mTypeToIds cm)) (<[id := ∅]> (mStorages cm))
  end.

(** Modelled from the spec: "returns the stable ID, asserting" for a type
    that was never registered. *)
Definition ComponentManager_getID (T : TypeId) (cm : ComponentManager) : Res N :=
  match mTypeToIds cm !! T with
  | Some id => Ok id
  | None => Abort "component type is not registered"
  end.

(** Modelled from the spec: "inserts/overwrites". *)
Definition ComponentManager_add (T : TypeId) (idx : nat) (value : Data)
    (cm : ComponentManager) : Res ComponentManager :=
  id ←r ComponentManager_getID T cm;;
  Ok (mkComponentManager (mTypeToIds cm)
        (<[id := <[idx := value]> (storage_of cm id)]> (mStorages cm))).

(** Modelled from the spec: "standard presence-checked access". *)
Definition ComponentManager_remove (T : TypeId) (idx : nat)
    (cm : ComponentManager) : Res ComponentManager :=
  id ←r ComponentManager_getID T cm;;
  Ok (mkComponentManager (mTypeToIds cm)
        (<[id := delete idx (storage_of cm id)]> (mStorages cm))).

(** Modelled from the spec: "get on absent returns a clear not-present
    signal". *)
Definition ComponentManager_get (T : TypeId) (idx : nat) (cm : ComponentManager)
    : Res (option Data) :=
  id ←r ComponentManager_getID T cm;;
  Ok (storage_of cm id !! idx).

(** Modelled from the spec: "has<T>(index) -> bool". *)
Definition ComponentManager_has (T : TypeId) (idx : nat) (cm : ComponentManager)
    : Res bool :=
  id ←r ComponentManager_getID T cm;;
  Ok (bool_decide (is_Some (storage_of cm id !! idx))).

(** Modelled from the spec: on destruction of an entity "all component
    storages [are] asked to remove that index". *)
Definition ComponentManager_removeAll (idx : nat) (cm : ComponentManager)
    : ComponentManager :=
  mkComponentManager (mTypeToIds cm) (delete idx <$> mStorages cm).

(** *** Resource manager *)

(** Modelled from the spec: [ResourceManager] ([resource_manager.hpp] is
    not part of the excerpt): "a mapping from resource type to a single
    boxed instance".  The reader/writer lock that guards each instance is
    not modelled; [read] and [write] both yield the instance. *)
Record ResourceManager : Type := mkResourceManager {
  mResources : gmap string Data
}.

(** Modelled from the spec: a resource manager without resources. *)
Definition ResourceManager_new : ResourceManager := mkResourceManager ∅.

(** Modelled from the spec: "constructs exactly one T in place; fails
    (assert/error) if T already registered", where "registering a
    duplicate resource type" is a usage error, "reported via a logged
    diagnostic and a no-op/false return -- never a crash". *)
Definition ResourceManager_add (T : TypeId) (instance : Data) (rm : ResourceManager)
    : ResourceManager * list Diagnostic :=
  match mResources rm !! T with
  | Some _ => (rm, [ResourceAlreadyRegistered T])
  | None => (mkResourceManager (<[T := instance]> (mResources rm)), [])
  end.

(** Modelled from the spec: "requesting an unregistered resource type is a
    fatal usage error". *)
Definition ResourceManager_read (T : TypeId) (rm : ResourceManager) : Res Data :=
  match mResources rm !! T with
  | Some instance => Ok instance
  | None => Abort "resource type is not registered"
  end.

(** Modelled from the spec: [write], which yields the same instance as
    [read] (the lock mode is not modelled). *)
Definition ResourceManager_write (T : TypeId) (rm : ResourceManager) : Res Data :=
  match mResources rm !! T with
  | Some instance => Ok instance
  | None => Abort "resource type is not registered"
  end.

End Data.

Arguments mkComponentManager {Data}.
Arguments mTypeToIds {Data}.
Arguments mStorages {Data}.
Arguments ComponentManager_new {Data}.
Arguments storage_of {Data}.
Arguments ComponentManager_registerComponent {Data}.
Arguments ComponentManager_getID {Data}.
Arguments ComponentManager_add {Data}.
Arguments ComponentManager_remove {Data}.
Arguments ComponentManager_get {Data}.
Arguments ComponentManager_has {Data}.
Arguments ComponentManager_removeAll {Data}.
Arguments mkResourceManager {Data}.
Arguments mResources {Data}.
Arguments ResourceManager_new {Data}.
Arguments ResourceManager_add {Data}.
Arguments ResourceManager_read {Data}.
Arguments ResourceManager_write {Data}.

(** *** World *)

Section World.
Variable Data : Type.

Record World : Type := mkWorld {
  mResourceManager : ResourceManager Data;
  mEntityManager : EntityManager;
  mComponentManager : ComponentManager Data
}.

(** Modelled from the spec: the constructor [World(initialCapacity)] is
    declared in [world.hpp] and defined out of line; it builds the three
    managers, all empty. *)
Definition World_new (initialCapacity : nat) : World :=
  mkWorld ResourceManager_new (EntityManager_new initialCapacity) ComponentManager_new.

(** [World::registerResource<T>(args...)]; [instance] is the [T] that the
    arguments construct. *)
Definition World_registerResource (T : TypeId) (instance : Data) (w : World)
    : World * list Diagnostic :=
  let '(rm, ds) := ResourceManager_add T instance (mResourceManager w) in
  (mkWorld rm (mEntityManager w) (mComponentManager w), ds).

(** [World::registerComponent<T>()] *)
Definition World_registerComponent (T : TypeId) (w : World) : World :=
  mkWorld (mResourceManager w) (mEntityManager w)
    (ComponentManager_registerComponent T (mComponentManager w)).

(** [World::read<T>()] and [World::write<T>()] *)
Definition World_read (T : TypeId) (w : World) : Res Data :=
  ResourceManager_read T (mResourceManager w).

Definition World_write (T : TypeId) (w : World) : Res Data :=
  ResourceManager_write T (mResourceManager w).

(** The pack expansion [getID<ComponentTypes>()...], left to right. *)
Fixpoint get_ids (types : list TypeId) (cm : ComponentManager Data) : Res (list N) :=
  match types with
  | [] => Ok []
  | T :: rest =>
      id ←r ComponentManager_getID T cm;;
      ids ←r get_ids rest cm;;
      Ok (id :: ids)
  end.

(** [for (auto id : ids) mask.set(id);] *)
Definition set_all (ids : list N) (mask : Mask) : Mask :=
  foldl (fun m id => N.setbit m id) mask ids.

(** The fold [(mComponentManager.add(entity.index, component), ...)]. *)
Fixpoint add_all (idx : nat) (components : list (TypeId * Data))
    (cm : ComponentManager Data) : Res (ComponentManager Data) :=
  match components with
  | [] => Ok cm
  | (T, value) :: rest =>
      cm' ←r ComponentManager_add T idx value cm;;
      add_all idx rest cm'
  end.

(** [World::create(components...)].  A component is given as its type
    together with its value. *)
Definition World_create (components : list (TypeId * Data)) (w : World)
    : Res (Entity * World) :=
  ids ←r get_ids (fst <$> components) (mComponentManager w);;
  let mask := set_all (0 :: ids) 0 in
  let '(entity, em) := EntityManager_create mask (mEntityManager w) in
  cm ←r add_all (index entity) components (mComponentManager w);;
  Ok (entity, mkWorld (mResourceManager w) em cm).

(** The fold of [World::add]: per component, [getID], [mask.set] and
    [mComponentManager.add]. *)
Fixpoint add_each (idx : nat) (components : list (TypeId * Data))
    (mask : Mask) (cm : ComponentManager Data) : Res (Mask * ComponentManager Data) :=
  match components with
  | [] => Ok (mask, cm)
  | (T, value) :: rest =>
      componentId ←r ComponentManager_getID T cm;;
      cm' ←r ComponentManager_add T idx value cm;;
      add_each idx rest (N.setbit mask componentId) cm'
  end.

(** [World::add(entity, components...)] *)
Definition World_add (entity : Entity) (components : list (TypeId * Data)) (w : World)
    : Res (World * list Diagnostic) :=
  if negb (EntityManager_isValid entity (mEntityManager w)) then
    Ok (w, [EntityDoesntExist (index entity)])
  else
    let '(mask, d1) := EntityManager_getMask entity (mEntityManager w) in
    st ←r add_each (index entity) components mask (mComponentManager w);;
    let '(em, d2) := EntityManager_setMask entity st.1 (mEntityManager w) in
    Ok (mkWorld (mResourceManager w) em st.2, d1 ++ d2).

(** The fold of [World::remove]: per type, [getID], [mask.set(id, false)]
    and [mComponentManager.remove]. *)
Fixpoint remove_each (idx : nat) (types : list TypeId)
    (mask : Mask) (cm : ComponentManager Data) : Res (Mask * ComponentManager Data) :=
  match types with
  | [] => Ok (mask, cm)
  | T :: rest =>
      componentId ←r ComponentManager_getID T cm;;
      cm' ←r ComponentManager_remove T idx cm;;
      remove_each idx rest (N.clearbit mask componentId) cm'
  end.

(** [World::remove<ComponentTypes...>(entity)] *)
Definition World_remove (entity : Entity) (types : list TypeId) (w : World)
    : Res (World * list Diagnostic) :=
  if negb (EntityManager_isValid entity (mEntityManager w)) then
    Ok (w, [EntityDoesntExist (index entity)])
  else
    let '(mask, d1) := EntityManager_getMask entity (mEntityManager w) in
    st ←r remove_each (index entity) types mask (mComponentManager w);;
    let '(em, d2) := EntityManager_setMask entity st.1 (mEntityManager w) in
    Ok (mkWorld (mResourceManager w) em st.2, d1 ++ d2).

(** [World::has<T>(entity)] *)
Definition World_has (T : TypeId) (entity : Entity) (w : World)
    : Res (bool * list Diagnostic) :=
  if negb (EntityManager_isValid entity (mEntityManager w)) then
    Ok (false, [EntityDoesntExist (index entity)])
  else
    componentId ←r ComponentManager_getID T (mComponentManager w);;
    let '(mask, d) := EntityManager_getMask entity (mEntityManager w) in
    Ok (N.testbit mask componentId, d).

(** Modelled from the spec: [World::destroy] is declared in [world.hpp]
    and defined out of line.  "generation bumped, index returned to free
    list, mask cleared, all component storages asked to remove that
    index"; on a dead entity the call is a reported no-op. *)
Definition World_destroy (entity : Entity) (w : World) : World * list Diagnostic :=
  if negb (EntityManager_isValid entity (mEntityManager w)) then
    (w, [EntityDoesntExist (index entity)])
  else
    (mkWorld (mResourceManager w)
       (EntityManager_destroy entity (mEntityManager w))
       (ComponentManager_removeAll (index entity) (mComponentManager w)), []).

(** Modelled from the spec: [World::isAlive] is declared in [world.hpp]
    and defined out of line.  "An Entity is alive iff the Entity Manager's
    current generation for that index equals the handle's generation." *)
Definition World_isAlive (entity : Entity) (w : World) : bool :=
  EntityManager_isValid entity (mEntityManager w).

(** Modelled from the spec: [World::pack] is declared in [world.hpp] and
    defined out of line.  A package lists components by type name; "pack
    must enumerate exactly the components whose mask bits are set".  The
    serialised form of a value is taken to be the value itself. *)
Definition World_pack (entity : Entity) (w : World) : list (TypeId * Data) :=
  let mask := (EntityManager_getMask entity (mEntityManager w)).1 in
  omap (fun '(T, id) =>
          if N.testbit mask id
          then (fun value => (T, value)) <$>
                 (storage_of (mComponentManager w) id !! index entity)
          else None)
       (map_to_list (mTypeToIds (mComponentManager w))).

(** Modelled from the spec: [World::unpack] is declared in [world.hpp]
    and defined out of line: "Removes any components that are already
    present in the entity", "returns true if the package was unpacked
    successfully, false otherwise".  It "must first clear all current
    components on the entity before applying the supplied set (full
    replace, not merge)"; a field of an unregistered type is skipped and
    makes the result false. *)
Definition World_unpack (entity : Entity) (package : list (TypeId * Data)) (w : World)
    : Res (bool * World * list Diagnostic) :=
  if negb (EntityManager_isValid entity (mEntityManager w)) then
    Ok (false, w, [EntityDoesntExist (index entity)])
  else
    let registered :=
      List.filter (fun c => bool_decide (is_Some (mTypeToIds (mComponentManager w) !! c.1)))
        package in
    r1 ←r World_remove entity (map_to_list (mTypeToIds (mComponentManager w))).*1 w;;
    r2 ←r World_add entity registered r1.1;;
    Ok (bool_decide (length registered = length package), r2.1, r1.2 ++ r2.2).

(** *** Queries *)

(** Modelled from the spec: the query engine ([query.hpp] is not part of
    the excerpt).  "Construction computes two masks": the bits of the
    required component types and the bits of the excluded ones. *)
Definition Query_new (required excluded : list TypeId) (w : World) : Res (Mask * Mask) :=
  rs ←r get_ids required (mComponentManager w);;
  xs ←r get_ids excluded (mComponentManager w);;
  Ok (set_all rs 0, set_all xs 0).

(** Modelled from the spec: "an entity matches iff
    (entityMask & required) == required and (entityMask & excluded) == 0". *)
Definition Query_matches (required excluded mask : Mask) : bool :=
  (N.land mask required =? required) && (N.land mask excluded =? 0).

(** Modelled from the spec: "Iteration walks live entities (via Entity
    Manager) in index order". *)
Definition Query_iterate (required excluded : Mask) (w : World) : list Entity :=
  List.filter
    (fun e => Query_matches required excluded (mask_at (mEntityManager w) (index e)))
    (EntityManager_entities (mEntityManager w)).

End World.

Arguments mkWorld {Data}.
Arguments mResourceManager {Data}.
Arguments mEntityManager {Data}.
Arguments mComponentManager {Data}.
Arguments World_new {Data}.
Arguments World_registerResource {Data}.
Arguments World_registerComponent {Data}.
Arguments World_read {Data}.
Arguments World_write {Data}.
Arguments get_ids {Data}.
Arguments add_all {Data}.
Arguments World_create {Data}.
Arguments add_each {Data}.
Arguments World_add {Data}.
Arguments remove_each {Data}.
Arguments World_remove {Data}.
Arguments World_has {Data}.
Arguments World_destroy {Data}.
Arguments World_isAlive {Data}.
Arguments World_pack {Data}.
Arguments World_unpack {Data}.
Arguments Query_new {Data}.
Arguments Query_iterate {Data}.

(** *** Runs of a world *)

(** One operation of a client of [World].  A state pairs the world with
    the handles that [create] has returned so far.  [add], [remove] and
    [destroy] are called on such a handle, live or stale, or on any handle
    that is invalid at the time of the call; they are never called on a
    handle made up to match the generation of a destroyed entity's slot. *)
Inductive step {Data : Type} : World Data * list Entity → World Data * list Entity → Prop :=
  | step_registerComponent T w hs :
      step (w, hs) (World_registerComponent T w, hs)
  | step_registerResource T instance w hs :
      step (w, hs) ((World_registerResource T instance w).1, hs)
  | step_create components w hs entity w' :
      World_create components w = Ok (entity, w') →
      step (w, hs) (w', entity :: hs)
  | step_add entity components w hs w' ds :
      entity ∈ hs ∨ EntityManager_isValid entity (mEntityManager w) = false →
      World_add entity components w = Ok (w', ds) →
      step (w, hs) (w', hs)
  | step_remove entity types w hs w' ds :
      entity ∈ hs ∨ EntityManager_isValid entity (mEntityManager w) = false →
      World_remove entity types w = Ok (w', ds) →
      step (w, hs) (w', hs)
  | step_destroy entity w hs :
      entity ∈ hs ∨ EntityManager_isValid entity (mEntityManager w) = false →
      step (w, hs) ((World_destroy entity w).1, hs).

(** The worlds a client can bring about, starting from a new world. *)
Definition reachable {Data : Type} (w : World Data) (hs : list Entity) : Prop :=
  ∃ initialCapacity, rtc step (World_new initialCapacity, []) (w, hs).

(** The IDs a registry gives to a list of types (unregistered ones are
    dropped). *)
Definition ids_of (reg : gmap string N) (types : list TypeId) : list N :=
  omap (fun T => reg !! T) types.

(** [T]'s storage holds an entry for index [i]. *)
Definition storage_contains {Data : Type} (T : TypeId) (i : nat) (w : World Data) : Prop :=
  ∃ id, mTypeToIds (mComponentManager w) !! T = Some id ∧
        is_Some (storage_of (mComponentManager w) id !! i).

(** Registry discipline: IDs are positive, distinct and at most the number
    of registered types; storages exist only for IDs in that range. *)
Definition cm_wf {Data : Type} (cm : ComponentManager Data) : Prop :=
  (∀ T id, mTypeToIds cm !! T = Some id →
           1 ≤ id ∧ id ≤ N.of_nat (size (mTypeToIds cm))) ∧
  (∀ T1 T2 id, mTypeToIds cm !! T1 = Some id → mTypeToIds cm !! T2 = Some id → T1 = T2) ∧
  (∀ id, is_Some (mStorages cm !! id) →
         1 ≤ id ∧ id ≤ N.of_nat (size (mTypeToIds cm))).

(** Mask and storages agree at every index, for every component ID. *)
Definition consistent {Data : Type} (w : World Data) : Prop :=
  ∀ i id, 1 ≤ id →
    N.testbit (mask_at (mEntityManager w) i) id = true
    ↔ is_Some (storage_of (mComponentManager w) id !! i).

(** Free-list and handle discipline of the entity manager. *)
Definition em_wf (em : EntityManager) (hs : list Entity) : Prop :=
  NoDup (mAvailableEntities em) ∧
  (∀ i, i ∈ mAvailableEntities em →
        (i < length (mEntities em))%nat ∧ mask_at em i = 0) ∧
  (∀ h, h ∈ hs →
        ∃ d, mEntities em !! index h = Some d ∧
             (generation h ≤ edGeneration d)%nat ∧
             (generation h = edGeneration d → index h ∉ mAvailableEntities em)).

Definition world_inv {Data : Type} (w : World Data) (hs : list Entity) : Prop :=
  cm_wf (mComponentManager w) ∧ consistent w ∧ em_wf (mEntityManager w) hs.

(** One call of a member of [World], on any arguments whatever. *)
Inductive World_op {Data : Type} : World Data → World Data → Prop :=
  | op_registerComponent T w :
      World_op w (World_registerComponent T w)
  | op_registerResource T instance w :
      World_op w (World_registerResource T instance w).1
  | op_create components w entity w' :
      World_create components w = Ok (entity, w') → World_op w w'
  | op_add entity components w w' ds :
      World_add entity components w = Ok (w', ds) → World_op w w'
  | op_remove entity types w w' ds :
      World_remove entity types w = Ok (w', ds) → World_op w w'
  | op_destroy entity w :
      World_op w (World_destroy entity w).1.

(** The worlds that calls of the members lead to from a new world. *)
Definition produced {Data : Type} (w : World Data) : Prop :=
  ∃ initialCapacity, rtc World_op (World_new initialCapacity) w.

(** Every mask bit of a component ID is backed by an entry in that
    component's storage. *)
Definition mask_backed {Data : Type} (w : World Data) : Prop :=
  ∀ i id, 1 ≤ id →
    N.testbit (mask_at (mEntityManager w) i) id = true →
    is_Some (storage_of (mComponentManager w) id !! i).

(** Every index on the free list has a slot. *)
Definition free_in_range (em : EntityManager) : Prop :=
  ∀ i, i ∈ mAvailableEntities em → (i < length (mEntities em))%nat.

(** What every call of a member of [World] preserves. *)
Definition world_sound {Data : Type} (w : World Data) : Prop :=
  cm_wf (mComponentManager w) ∧ mask_backed w ∧ free_in_range (mEntityManager w).

(** The stored generation of every index is at least what it was. *)
Definition generation_le (em em' : EntityManager) : Prop :=
  ∀ i d, mEntities em !! i = Some d →
         ∃ d', mEntities em' !! i = Some d' ∧ (edGeneration d ≤ edGeneration d')%nat.

(** *** Sample worlds *)

(** A world with the component types A, B and C registered, in this
    order. *)
Definition sample_registry : World Z :=
  World_registerComponent "C"
    (World_registerComponent "B"
       (World_registerComponent "A" (World_new 1024))).

(** The handle and the world that [create] returns (the world unchanged
    and a handle out of range if it asserts). *)
Definition created (components : list (TypeId * Z)) (w : World Z) : Entity * World Z :=
  match World_create components w with
  | Ok r => r
  | Abort _ => (mkEntity (length (mEntities (mEntityManager w))) 0, w)
  end.

(** Four entities, with the components AB, A, B and AC. *)
Definition sample_world : World Z :=
  (created [("A", 5); ("C", 6)]
     (created [("B", 4)]
        (created [("A", 3)]
           (created [("A", 1); ("B", 2)] sample_registry).2).2).2).2%Z.

Definition sample_handles : list Entity :=
  [mkEntity 3 0; mkEntity 2 0; mkEntity 1 0; mkEntity 0 0].

(** The part of a world that [add] and [remove] on the entity at [idx]
    cannot reach. *)
Definition same_elsewhere {Data : Type} (idx : nat) (w w' : World Data) : Prop :=
  mResourceManager w' = mResourceManager w ∧
  mTypeToIds (mComponentManager w') = mTypeToIds (mComponentManager w) ∧
  mAvailableEntities (mEntityManager w') = mAvailableEntities (mEntityManager w) ∧
  (∀ h, World_isAlive h w' = World_isAlive h w) ∧
  EntityManager_entities (mEntityManager w') = EntityManager_entities (mEntityManager w) ∧
  (∀ j, j ≠ idx →
        mask_at (mEntityManager w') j = mask_at (mEntityManager w) j ∧
        ∀ id, storage_of (mComponentManager w') id !! j
              = storage_of (mComponentManager w) id !! j).

(** The world that [add] returns, and the one that [remove] returns (the
    world unchanged if the call asserts). *)
Definition added (e : Entity) (components : list (TypeId * Z)) (w : World Z) : World Z :=
  match World_add e components w with
  | Ok r => r.1
  | Abort _ => w
  end.

Definition removed (e : Entity) (types : list TypeId) (w : World Z) : World Z :=
  match World_remove e types w with
  | Ok r => r.1
  | Abort _ => w
  end.

End Ecs.

(** * Properties of [ConstructibleTrait] *)

Section ConstructibleFacts.
Import Reflection.

(** ** Powers of two and the test [a & (a - 1)] *)

Lemma size_sub_one (a : N) : 0 < a → a < SIZE_MOD → size_sub a 1 = N.pred a.
Proof.
  intros Hpos Hlt. unfold size_sub.
  assert (H1 : 1 mod SIZE_MOD = 1) by reflexivity.
  rewrite H1.
  replace (a + SIZE_MOD - 1) with (N.pred a + 1 * SIZE_MOD) by lia.
  rewrite N.Div0.mod_add. apply N.mod_small. lia.
Qed.

Lemma pos_land_diag (p : positive) : Pos.land p p = Npos p.
Proof. induction p as [p IH|p IH|].
- change (Pos.land p~1 p~1) with (Pos.Nsucc_double (Pos.land p p)). rewrite IH. reflexivity.
- change (Pos.land p~0 p~0) with (Pos.Ndouble (Pos.land p p)). rewrite IH. reflexivity.
- reflexivity.
Qed.

Lemma land_pred_zero_pow2 (p : positive) :
  N.land (Npos p) (Pos.pred_N p) = 0 → ∃ k, Npos p = 2 ^ k.
Proof.
  induction p as [p _|p IH|].
  - change (N.land (N.pos p~1) (Pos.pred_N p~1)) with (Pos.Ndouble (Pos.land p p)).
    rewrite pos_land_diag. discriminate.
  - intros H.
    destruct (Pos.eq_dec p 1%positive) as [->|Hne].
    + exists 1. reflexivity.
    + assert (Hs : Pos.succ (Pos.pred p) = p) by (apply Pos.succ_pred; assumption).
      assert (Hp : Pos.pred_N p = Npos (Pos.pred p)).
      { rewrite <- Hs at 1. apply Pos.pred_N_succ. }
      assert (Hd : Pos.pred_double p = xI (Pos.pred p)).
      { rewrite <- Hs at 1. apply Pos.pred_double_succ. }
      change (N.land (N.pos p~0) (Pos.pred_N p~0)) with (Pos.land p~0 (Pos.pred_double p)) in H.
      rewrite Hd in H.
      change (Pos.land p~0 (Pos.pred p)~1) with (Pos.Ndouble (Pos.land p (Pos.pred p))) in H.
      destruct IH as [k Hk].
      * rewrite Hp. change (N.land (N.pos p) (N.pos (Pos.pred p))) with (Pos.land p (Pos.pred p)).
        destruct (Pos.land p (Pos.pred p)); [reflexivity|discriminate].
      * exists (N.succ k). rewrite N.pow_succ_r'. rewrite <- Hk. reflexivity.
  - intros _. exists 0. reflexivity.
Qed.

Lemma pow2_land_pred (k : N) : N.land (2 ^ k) (N.pred (2 ^ k)) = 0.
Proof.
  rewrite <- N.ones_equiv. apply N.bits_inj. intros n.
  rewrite N.land_spec, N.bits_0, N.pow2_bits_eqb.
  destruct (N.eqb_spec k n) as [->|Hne]; [|reflexivity].
  rewrite N.ones_spec_high by lia. reflexivity.
Qed.

Lemma power_of_two_test (a : N) :
  0 < a → a < SIZE_MOD →
  (N.land a (size_sub a 1) =? 0) = true ↔ ∃ k, a = 2 ^ k.
Proof.
  intros Hpos Hlt. rewrite size_sub_one by assumption. rewrite N.eqb_eq. split.
  - destruct a as [|p]; [lia|]. intros H. apply land_pred_zero_pow2.
    rewrite <- H. reflexivity.
  - intros [k ->]. apply pow2_land_pred.
Qed.


(** ** The constructor *)

Section ConstructorContract.
Context {Mem : Type}.
Implicit Types (t : ConstructibleTrait Mem) (destructor : option (Destructor Mem)).

Lemma ConstructibleTrait_new_ok (size alignment : N) (d : Destructor Mem) (k : N) :
  alignment < SIZE_MOD → alignment = 2 ^ k →
  ConstructibleTrait_new size alignment (Some d)
  = Ok (mkConstructibleTrait size alignment (Some d) None None None).
Proof.
  intros Hlt Hk.
  assert (Hpos : 0 < alignment).
  { subst alignment. apply N.neq_0_lt_0. apply N.pow_nonzero. discriminate. }
  unfold ConstructibleTrait_new, CUBOS_ASSERT; cbn [mAlignment mDestructor is_null negb].
  apply N.ltb_lt in Hpos as ->.
  assert (Htest : (N.land alignment (size_sub alignment 1) =? 0) = true).
  { apply power_of_two_test; [apply N.neq_0_lt_0; subst; apply N.pow_nonzero; discriminate
                             | assumption | eauto]. }
  rewrite Htest. reflexivity.
Qed.

Lemma ConstructibleTrait_new_abort (size alignment : N) destructor :
  alignment < SIZE_MOD →
  alignment = 0 ∨ (∀ k, alignment ≠ 2 ^ k) ∨ destructor = None →
  ∃ msg, ConstructibleTrait_new size alignment destructor = Abort msg.
Proof.
  intros Hlt Hbad.
  unfold ConstructibleTrait_new, CUBOS_ASSERT; cbn [mAlignment mDestructor].
  destruct (N.ltb_spec 0 alignment) as [Hpos|Hz]; [|eauto].
  destruct (N.land alignment (size_sub alignment 1) =? 0) eqn:Htest; [|eauto].
  apply power_of_two_test in Htest as [k Hk]; [|assumption..].
  destruct Hbad as [->|[Hnp| ->]]; [lia|by destruct (Hnp k)|].
  cbn. eauto.
Qed.

End ConstructorContract.

(** C8.  The constructor asserts, and so terminates the process, on a zero
    alignment, on an alignment that is not a power of two and on a null
    destructor.  For an alignment that is a power of two and a non-null
    destructor it succeeds, and the trait it builds returns the size and
    the alignment verbatim and destructs through the destructor it was
    given. *)
Theorem ConstructibleTrait_constructor_contract {Mem : Type}
    (sz align : N) (destructor : option (Destructor Mem)) :
  align < SIZE_MOD →
  (align = 0 ∨ (∀ k, align ≠ 2 ^ k) ∨ destructor = None →
     ∃ msg, ConstructibleTrait_new sz align destructor = Abort msg) ∧
  (∀ k d, align = 2 ^ k → destructor = Some d →
     ∃ t, ConstructibleTrait_new sz align destructor = Ok t ∧
          size t = sz ∧ alignment t = align ∧ mDestructor t = Some d ∧
          ∀ instance mem, destruct t instance mem = Ok (d instance mem)).
Proof.
  intros Hlt. split.
  - intros Hbad. by apply ConstructibleTrait_new_abort.
  - intros k d Hk ->. eexists. split.
    + by apply (ConstructibleTrait_new_ok sz align d k).
    + repeat split.
Qed.

Lemma ConstructibleTrait_constructor_contract_witness :
  4 < SIZE_MOD ∧
  ∃ t, ConstructibleTrait_new (Mem := nat) 16 4 (Some (fun _ m => S m)) = Ok t ∧
       size t = 16 ∧ alignment t = 4 ∧ mDestructor t = Some (fun _ m => S m) ∧
       ∀ instance mem, destruct t instance mem = Ok (S mem).
Proof.
  split; [reflexivity|].
  exact (proj2 (ConstructibleTrait_constructor_contract (Mem := nat) 16 4
                  (Some (fun _ m => S m)) eq_refl)
               2 (fun _ m => S m) eq_refl eq_refl).
Defined.

(** ** Constructing through the stored callbacks *)

(** C10.  [defaultConstruct], [copyConstruct] and [moveConstruct] return
    true exactly when the matching callback is stored, and then the
    memory is what the callback makes of it; with no callback stored they
    return false and the memory is untouched.  A [with*] setter asserts
    when its callback is already stored and otherwise stores the one it is
    given, leaving every other member alone.  A trait fresh from the
    constructor has no constructor callback. *)
Theorem construct_uses_stored_callback {Mem : Type}
    (t : ConstructibleTrait Mem) (instance other : Ptr) (mem : Mem) :
  (* the three construct functions *)
  ((defaultConstruct t instance mem).1 = true ↔ is_Some (mDefaultConstructor t)) ∧
  (∀ f, mDefaultConstructor t = Some f →
        defaultConstruct t instance mem = (true, f instance mem)) ∧
  (mDefaultConstructor t = None → defaultConstruct t instance mem = (false, mem)) ∧
  ((copyConstruct t instance other mem).1 = true ↔ is_Some (mCopyConstructor t)) ∧
  (∀ f, mCopyConstructor t = Some f →
        copyConstruct t instance other mem = (true, f instance other mem)) ∧
  (mCopyConstructor t = None → copyConstruct t instance other mem = (false, mem)) ∧
  ((moveConstruct t instance other mem).1 = true ↔ is_Some (mMoveConstructor t)) ∧
  (∀ f, mMoveConstructor t = Some f →
        moveConstruct t instance other mem = (true, f instance other mem)) ∧
  (mMoveConstructor t = None → moveConstruct t instance other mem = (false, mem)) ∧
  (* the setters *)
  (∀ c, withDefaultConstructor c t =
        if is_null (mDefaultConstructor t)
        then Ok (mkConstructibleTrait (mSize t) (mAlignment t) (mDestructor t)
                   c (mCopyConstructor t) (mMoveConstructor t))
        else Abort "Default constructor already set") ∧
  (∀ c, withCopyConstructor c t =
        if is_null (mCopyConstructor t)
        then Ok (mkConstructibleTrait (mSize t) (mAlignment t) (mDestructor t)
                   (mDefaultConstructor t) c (mMoveConstructor t))
        else Abort "Copy constructor already set") ∧
  (∀ c, withMoveConstructor c t =
        if is_null (mMoveConstructor t)
        then Ok (mkConstructibleTrait (mSize t) (mAlignment t) (mDestructor t)
                   (mDefaultConstructor t) (mCopyConstructor t) c)
        else Abort "Move constructor already set") ∧
  (* set, then construct *)
  (∀ f t', withDefaultConstructor (Some f) t = Ok t' →
        defaultConstruct t' instance mem = (true, f instance mem) ∧
        (∃ msg, withDefaultConstructor (Some f) t' = Abort msg)) ∧
  (∀ f t', withCopyConstructor (Some f) t = Ok t' →
        copyConstruct t' instance other mem = (true, f instance other mem) ∧
        (∃ msg, withCopyConstructor (Some f) t' = Abort msg)) ∧
  (∀ f t', withMoveConstructor (Some f) t = Ok t' →
        moveConstruct t' instance other mem = (true, f instance other mem) ∧
        (∃ msg, withMoveConstructor (Some f) t' = Abort msg)) ∧
  (* fresh from the constructor *)
  (∀ sz align d, ConstructibleTrait_new sz align d = Ok t →
        defaultConstruct t instance mem = (false, mem) ∧
        copyConstruct t instance other mem = (false, mem) ∧
        moveConstruct t instance other mem = (false, mem)).
Proof.
  destruct t as [sz0 al0 d0 dc cc mc].
  unfold defaultConstruct, copyConstruct, moveConstruct,
    withDefaultConstructor, withCopyConstructor, withMoveConstructor, CUBOS_ASSERT.
  cbn [mSize mAlignment mDestructor mDefaultConstructor mCopyConstructor mMoveConstructor].
  repeat match goal with |- _ ∧ _ => split end.
  - destruct dc; cbn; split; intros H; first [done | by eexists | by destruct H].
  - by intros f ->.
  - by intros ->.
  - destruct cc; cbn; split; intros H; first [done | by eexists | by destruct H].
  - by intros f ->.
  - by intros ->.
  - destruct mc; cbn; split; intros H; first [done | by eexists | by destruct H].
  - by intros f ->.
  - by intros ->.
  - intros c. by destruct dc.
  - intros c. by destruct cc.
  - intros c. by destruct mc.
  - intros f t'. destruct dc; cbn; [done|]. intros [= <-]. cbn. eauto.
  - intros f t'. destruct cc; cbn; [done|]. intros [= <-]. cbn. eauto.
  - intros f t'. destruct mc; cbn; [done|]. intros [= <-]. cbn. eauto.
  - intros sz align d. unfold ConstructibleTrait_new, CUBOS_ASSERT.
    cbn [mAlignment mDestructor].
    repeat case_match; done.
Qed.

End ConstructibleFacts.

(** * Properties of the ECS core *)

Section WorldFacts.
Import Ecs.
Context {Data : Type}.
Implicit Types (w : World Data) (cm : ComponentManager Data) (em : EntityManager).
Implicit Types (e entity : Entity) (hs : list Entity) (T : string) (id : N) (i j idx : nat).

(** Membership in a list built with [::]. *)
Ltac in_list := solve [apply elem_of_cons; auto].

(** ** Entity manager *)

Lemma isValid_true e em :
  EntityManager_isValid e em = true
  ↔ ∃ d, mEntities em !! index e = Some d ∧ edGeneration d = generation e.
Proof.
  unfold EntityManager_isValid.
  destruct (mEntities em !! index e) as [d|]; split.
  - intros H%Nat.eqb_eq. eauto.
  - intros (d' & [= <-] & H). by apply Nat.eqb_eq.
  - done.
  - by intros (d' & [=] & _).
Qed.

Lemma isValid_false e em :
  EntityManager_isValid e em = false
  ↔ (length (mEntities em) ≤ index e)%nat
    ∨ ∃ d, mEntities em !! index e = Some d ∧ edGeneration d ≠ generation e.
Proof.
  unfold EntityManager_isValid.
  destruct (mEntities em !! index e) as [d|] eqn:Hd; split.
  - intros H%Nat.eqb_neq. eauto.
  - intros [Hle|(d' & [= <-] & H)]; [|by apply Nat.eqb_neq].
    apply lookup_lt_Some in Hd. lia.
  - intros _. left. by apply lookup_ge_None.
  - done.
Qed.

Lemma mask_at_alter (f : EntityData → EntityData) i j (ds : list EntityData) (fr : list nat) :
  mask_at (mkEntityManager (alter f i ds) fr) j
  = match ds !! j with
    | Some d => if decide (i = j) then edMask (f d) else edMask d
    | None => 0
    end.
Proof.
  unfold mask_at. cbn [mEntities].
  destruct (decide (i = j)) as [->|Hne].
  - rewrite list_lookup_alter_eq. by destruct (ds !! j).
  - rewrite list_lookup_alter_ne by done. by destruct (ds !! j).
Qed.

Lemma getMask_valid e em :
  EntityManager_isValid e em = true →
  EntityManager_getMask e em = (mask_at em (index e), []).
Proof. intros H. unfold EntityManager_getMask. by rewrite H. Qed.

Lemma setMask_valid e m em :
  EntityManager_isValid e em = true →
  EntityManager_setMask e m em
  = (mkEntityManager
       (alter (fun d => mkEntityData (edGeneration d) m) (index e) (mEntities em))
       (mAvailableEntities em), []).
Proof. intros H. unfold EntityManager_setMask. by rewrite H. Qed.


(** ** Component manager *)

Lemma getID_Ok T cm id :
  ComponentManager_getID T cm = Ok id ↔ mTypeToIds cm !! T = Some id.
Proof.
  unfold ComponentManager_getID. destruct (mTypeToIds cm !! T); split; congruence.
Qed.

Lemma storage_of_insert (sts : gmap N (gmap nat Data)) reg id id' (st : gmap nat Data) :
  storage_of (mkComponentManager reg (<[id := st]> sts)) id'
  = if decide (id = id') then st else storage_of (mkComponentManager reg sts) id'.
Proof.
  unfold storage_of. cbn [mStorages]. rewrite lookup_insert.
  by destruct (decide (id = id')).
Qed.

Lemma ComponentManager_add_Ok T idx (v : Data) cm cm' :
  ComponentManager_add T idx v cm = Ok cm' →
  ∃ id, mTypeToIds cm !! T = Some id ∧
        cm' = mkComponentManager (mTypeToIds cm)
                (<[id := <[idx := v]> (storage_of cm id)]> (mStorages cm)).
Proof.
  unfold ComponentManager_add, ComponentManager_getID.
  destruct (mTypeToIds cm !! T) as [id|]; cbn; [|done].
  intros [= <-]. eauto.
Qed.

Lemma ComponentManager_remove_Ok T idx cm cm' :
  ComponentManager_remove T idx cm = Ok cm' →
  ∃ id, mTypeToIds cm !! T = Some id ∧
        cm' = mkComponentManager (mTypeToIds cm)
                (<[id := delete idx (storage_of cm id)]> (mStorages cm)).
Proof.
  unfold ComponentManager_remove, ComponentManager_getID.
  destruct (mTypeToIds cm !! T) as [id|]; cbn; [|done].
  intros [= <-]. eauto.
Qed.

(** What a fold of [add]s does to the storages. *)
Lemma add_all_Ok idx (cs : list (string * Data)) cm cm' :
  add_all idx cs cm = Ok cm' →
  mTypeToIds cm' = mTypeToIds cm ∧
  (∀ id, is_Some (mStorages cm' !! id) →
         is_Some (mStorages cm !! id) ∨ id ∈ ids_of (mTypeToIds cm) cs.*1) ∧
  (∀ id j, j ≠ idx → storage_of cm' id !! j = storage_of cm id !! j) ∧
  (∀ id, id ∉ ids_of (mTypeToIds cm) cs.*1 →
         storage_of cm' id !! idx = storage_of cm id !! idx) ∧
  (∀ id, id ∈ ids_of (mTypeToIds cm) cs.*1 →
         ∃ T v, (T, v) ∈ cs ∧ mTypeToIds cm !! T = Some id ∧
                storage_of cm' id !! idx = Some v).
Proof.
  revert cm. induction cs as [|[T v] cs IH]; intros cm; cbn [add_all].
  - intros [= <-]. repeat split; try done.
    + eauto.
    + intros id H. cbn in H. by apply elem_of_nil in H.
  - destruct (ComponentManager_add T idx v cm) as [cm1|] eqn:Hadd; cbn [res_bind]; [|done].
    apply ComponentManager_add_Ok in Hadd as (id0 & Hid0 & ->).
    intros Hrest. apply IH in Hrest as (Hreg & Hkeys & Hother & Hout & Hin).
    cbn [mTypeToIds mStorages] in *.
    assert (Hids : ids_of (mTypeToIds cm) ((T, v) :: cs).*1
                   = id0 :: ids_of (mTypeToIds cm) cs.*1).
    { unfold ids_of. cbn. by rewrite Hid0. }
    rewrite Hids. repeat split.
    + done.
    + intros id [Hs|Hs]%Hkeys; [|right; in_list].
      rewrite lookup_insert in Hs. destruct (decide (id0 = id)); [right; in_list|by left].
    + intros id j Hj. rewrite Hother by done. rewrite storage_of_insert.
      destruct (decide (id0 = id)) as [<-|]; [by rewrite lookup_insert_ne|].
      by destruct cm.
    + intros id Hnot. apply not_elem_of_cons in Hnot as [Hne Hnot].
      rewrite Hout by done. rewrite storage_of_insert.
      destruct (decide (id0 = id)); [congruence|]. by destruct cm.
    + intros id Hid.
      destruct (decide (id ∈ ids_of (mTypeToIds cm) cs.*1)) as [Hyes|Hno].
      * destruct (Hin id Hyes) as (T' & v' & Hel & HT' & Hv').
        exists T', v'. split; [in_list|done].
      * apply elem_of_cons in Hid as [->|]; [|done].
        exists T, v. split; [in_list|]. split; [done|].
        rewrite Hout by done. rewrite storage_of_insert.
        destruct (decide (id0 = id0)); [|done]. by rewrite lookup_insert_eq.
Qed.

Lemma get_ids_Ok (ts : list string) cm ids :
  get_ids ts cm = Ok ids →
  ids = ids_of (mTypeToIds cm) ts ∧ Forall (fun T => is_Some (mTypeToIds cm !! T)) ts.
Proof.
  revert ids. induction ts as [|T ts IH]; intros ids; cbn [get_ids].
  - by intros [= <-].
  - unfold ComponentManager_getID.
    destruct (mTypeToIds cm !! T) as [id|] eqn:HT; cbn [res_bind]; [|done].
    destruct (get_ids ts cm) as [ids'|]; cbn [res_bind]; [|done].
    intros [= <-]. destruct (IH ids' eq_refl) as [-> Hall]. split.
    + unfold ids_of. cbn. by rewrite HT.
    + constructor; [by rewrite HT|done].
Qed.

Lemma get_ids_total (ts : list string) cm :
  Forall (fun T => is_Some (mTypeToIds cm !! T)) ts →
  get_ids ts cm = Ok (ids_of (mTypeToIds cm) ts).
Proof.
  induction 1 as [|T ts [id HT] _ IH]; [done|].
  cbn [get_ids]. unfold ComponentManager_getID. rewrite HT. cbn [res_bind].
  rewrite IH. cbn. unfold ids_of. cbn. by rewrite HT.
Qed.

Lemma set_all_testbit (ids : list N) (m : N) id :
  N.testbit (set_all ids m) id = true ↔ N.testbit m id = true ∨ id ∈ ids.
Proof.
  unfold set_all. revert m. induction ids as [|x ids IH]; intros m; cbn [foldl].
  - rewrite elem_of_nil. tauto.
  - rewrite IH, N.setbit_iff, elem_of_cons. intuition congruence.
Qed.

(** A fold of [World::add] is a fold of storage [add]s, and sets the mask
    bits of the IDs it meets. *)
Lemma add_each_Ok idx (cs : list (string * Data)) (m : N) cm m' cm' :
  add_each idx cs m cm = Ok (m', cm') →
  add_all idx cs cm = Ok cm' ∧
  m' = set_all (ids_of (mTypeToIds cm) cs.*1) m.
Proof.
  revert m cm. induction cs as [|[T v] cs IH]; intros m cm; cbn [add_each add_all].
  - by intros [= <- <-].
  - unfold ComponentManager_getID at 1.
    destruct (mTypeToIds cm !! T) as [id|] eqn:HT; cbn [res_bind]; [|done].
    destruct (ComponentManager_add T idx v cm) as [cm1|] eqn:Hadd; cbn [res_bind]; [|done].
    intros [Hall ->]%IH. split; [done|].
    apply ComponentManager_add_Ok in Hadd as (id0 & _ & ->). cbn [mTypeToIds].
    unfold ids_of. cbn. by rewrite HT.
Qed.

Lemma add_each_total idx (cs : list (string * Data)) (m : N) cm :
  Forall (fun T => is_Some (mTypeToIds cm !! T)) cs.*1 →
  ∃ m' cm', add_each idx cs m cm = Ok (m', cm').
Proof.
  revert m cm. induction cs as [|[T v] cs IH]; intros m cm Hall; cbn [add_each].
  - eauto.
  - apply Forall_cons in Hall as [[id HT] Hall]. cbn in HT.
    unfold ComponentManager_add, ComponentManager_getID. rewrite HT. cbn [res_bind].
    apply IH. done.
Qed.

(** What a fold of [World::remove] does to the mask and the storages. *)
Lemma remove_each_Ok idx (ts : list string) (m : N) cm m' cm' :
  remove_each idx ts m cm = Ok (m', cm') →
  mTypeToIds cm' = mTypeToIds cm ∧
  (∀ id, is_Some (mStorages cm' !! id) →
         is_Some (mStorages cm !! id) ∨ id ∈ ids_of (mTypeToIds cm) ts) ∧
  (∀ id j, j ≠ idx → storage_of cm' id !! j = storage_of cm id !! j) ∧
  (∀ id, id ∉ ids_of (mTypeToIds cm) ts →
         storage_of cm' id !! idx = storage_of cm id !! idx) ∧
  (∀ id, id ∈ ids_of (mTypeToIds cm) ts → storage_of cm' id !! idx = None) ∧
  (∀ id, N.testbit m' id = true
         ↔ N.testbit m id = true ∧ id ∉ ids_of (mTypeToIds cm) ts).
Proof.
  revert m cm. induction ts as [|T ts IH]; intros m cm; cbn [remove_each].
  - intros [= <- <-]. split_and!; try done.
    + eauto.
    + intros id H. cbn in H. by apply elem_of_nil in H.
    + intros id. cbn. rewrite elem_of_nil. tauto.
  - unfold ComponentManager_getID at 1.
    destruct (mTypeToIds cm !! T) as [id0|] eqn:HT; cbn [res_bind]; [|done].
    destruct (ComponentManager_remove T idx cm) as [cm1|] eqn:Hrem; cbn [res_bind]; [|done].
    apply ComponentManager_remove_Ok in Hrem as (id0' & Hid0 & ->).
    assert (id0' = id0) as -> by congruence.
    intros Hrest. apply IH in Hrest as (Hreg & Hkeys & Hother & Hout & Hin & Hmask).
    cbn [mTypeToIds mStorages] in *.
    assert (Hids : ids_of (mTypeToIds cm) (T :: ts) = id0 :: ids_of (mTypeToIds cm) ts).
    { unfold ids_of. cbn. by rewrite HT. }
    rewrite Hids. split_and!.
    + done.
    + intros id [Hs|Hs]%Hkeys; [|right; in_list].
      rewrite lookup_insert in Hs. destruct (decide (id0 = id)); [right; in_list|by left].
    + intros id j Hj. rewrite Hother by done. rewrite storage_of_insert.
      destruct (decide (id0 = id)) as [<-|]; [by rewrite lookup_delete_ne|].
      by destruct cm.
    + intros id Hnot. apply not_elem_of_cons in Hnot as [Hne Hnot].
      rewrite Hout by done. rewrite storage_of_insert.
      destruct (decide (id0 = id)); [congruence|]. by destruct cm.
    + intros id Hid.
      destruct (decide (id ∈ ids_of (mTypeToIds cm) ts)) as [Hyes|Hno]; [by apply Hin|].
      apply elem_of_cons in Hid as [->|]; [|done].
      rewrite Hout by done. rewrite storage_of_insert.
      destruct (decide (id0 = id0)); [|done]. by rewrite lookup_delete_eq.
    + intros id. rewrite Hmask, N.clearbit_iff, not_elem_of_cons.
      intuition congruence.
Qed.

Lemma remove_each_total idx (ts : list string) (m : N) cm :
  Forall (fun T => is_Some (mTypeToIds cm !! T)) ts →
  ∃ m' cm', remove_each idx ts m cm = Ok (m', cm').
Proof.
  revert m cm. induction ts as [|T ts IH]; intros m cm Hall; cbn [remove_each].
  - eauto.
  - apply Forall_cons in Hall as [[id HT] Hall].
    unfold ComponentManager_remove, ComponentManager_getID. rewrite HT. cbn [res_bind].
    apply IH. done.
Qed.

(** ** Unfolding the operations of [World] *)

Lemma World_add_Ok e (cs : list (string * Data)) w w' ds :
  World_add e cs w = Ok (w', ds) →
  (EntityManager_isValid e (mEntityManager w) = false ∧ w' = w
   ∧ ds = [EntityDoesntExist (index e)])
  ∨ (EntityManager_isValid e (mEntityManager w) = true ∧ ds = [] ∧
     ∃ cm', add_all (index e) cs (mComponentManager w) = Ok cm' ∧
       w' = mkWorld (mResourceManager w)
              (mkEntityManager
                 (alter (fun d => mkEntityData (edGeneration d)
                           (set_all (ids_of (mTypeToIds (mComponentManager w)) cs.*1)
                              (mask_at (mEntityManager w) (index e))))
                    (index e) (mEntities (mEntityManager w)))
                 (mAvailableEntities (mEntityManager w)))
              cm').
Proof.
  unfold World_add.
  destruct (EntityManager_isValid e (mEntityManager w)) eqn:Hv; cbn [negb].
  - rewrite getMask_valid by done.
    destruct (add_each _ _ _ _) as [[m' cm']|] eqn:Hadd; cbn [res_bind]; [|done].
    rewrite setMask_valid by done. cbn [fst snd].
    apply add_each_Ok in Hadd as [Hall ->].
    intros [= <- <-]. right. eauto.
  - intros [= <- <-]. by left.
Qed.

Lemma World_remove_Ok e (ts : list string) w w' ds :
  World_remove e ts w = Ok (w', ds) →
  (EntityManager_isValid e (mEntityManager w) = false ∧ w' = w
   ∧ ds = [EntityDoesntExist (index e)])
  ∨ (EntityManager_isValid e (mEntityManager w) = true ∧ ds = [] ∧
     ∃ m' cm', remove_each (index e) ts (mask_at (mEntityManager w) (index e))
                 (mComponentManager w) = Ok (m', cm') ∧
       w' = mkWorld (mResourceManager w)
              (mkEntityManager
                 (alter (fun d => mkEntityData (edGeneration d) m')
                    (index e) (mEntities (mEntityManager w)))
                 (mAvailableEntities (mEntityManager w)))
              cm').
Proof.
  unfold World_remove.
  destruct (EntityManager_isValid e (mEntityManager w)) eqn:Hv; cbn [negb].
  - rewrite getMask_valid by done.
    destruct (remove_each _ _ _ _) as [[m' cm']|] eqn:Hrem; cbn [res_bind]; [|done].
    rewrite setMask_valid by done. cbn [fst snd].
    intros [= <- <-]. right. eauto 10.
  - intros [= <- <-]. by left.
Qed.

Lemma World_create_Ok (cs : list (string * Data)) w e w' :
  World_create cs w = Ok (e, w') →
  let mask := set_all (0 :: ids_of (mTypeToIds (mComponentManager w)) cs.*1) 0 in
  Forall (fun T => is_Some (mTypeToIds (mComponentManager w) !! T)) cs.*1 ∧
  ∃ cm', add_all (index e) cs (mComponentManager w) = Ok cm' ∧
    w' = mkWorld (mResourceManager w)
           (EntityManager_create mask (mEntityManager w)).2 cm' ∧
    e = (EntityManager_create mask (mEntityManager w)).1.
Proof.
  unfold World_create.
  destruct (get_ids _ _) as [ids|] eqn:Hids; cbn [res_bind]; [|done].
  apply get_ids_Ok in Hids as [-> Hall].
  destruct (EntityManager_create _ _) as [e0 em'] eqn:Hc.
  destruct (add_all _ _ _) as [cm'|] eqn:Hadd; cbn [res_bind]; [|done].
  intros [= <- <-]. cbn. eauto.
Qed.

(** ** Preservation of the invariant *)

Lemma ids_of_registered (reg : gmap string N) (ts : list string) id :
  id ∈ ids_of reg ts ↔ ∃ T, T ∈ ts ∧ reg !! T = Some id.
Proof. unfold ids_of. apply list_elem_of_omap. Qed.

Lemma cm_wf_update cm cm' (ts : list string) :
  cm_wf cm →
  mTypeToIds cm' = mTypeToIds cm →
  (∀ id, is_Some (mStorages cm' !! id) →
         is_Some (mStorages cm !! id) ∨ id ∈ ids_of (mTypeToIds cm) ts) →
  cm_wf cm'.
Proof.
  intros (Hrange & Hinj & Hkeys) Hreg Hsts. unfold cm_wf. rewrite Hreg.
  split_and!; [done..|].
  intros id [Hs|Hs]%Hsts; [by apply Hkeys|].
  apply ids_of_registered in Hs as (T & _ & HT). by eapply Hrange.
Qed.

Lemma consistent_update w rm' em' cm' idx :
  consistent w →
  (∀ j, j ≠ idx → mask_at em' j = mask_at (mEntityManager w) j) →
  (∀ id j, j ≠ idx → storage_of cm' id !! j = storage_of (mComponentManager w) id !! j) →
  (∀ id, 1 ≤ id →
         N.testbit (mask_at em' idx) id = true ↔ is_Some (storage_of cm' id !! idx)) →
  consistent (mkWorld rm' em' cm').
Proof.
  intros Hc Hmask Hst Hidx i id Hid. cbn [mEntityManager mComponentManager].
  destruct (decide (i = idx)) as [->|Hne]; [by apply Hidx|].
  rewrite Hmask, Hst by done. by apply Hc.
Qed.

Lemma valid_handle_not_free e em hs :
  em_wf em hs → e ∈ hs → EntityManager_isValid e em = true →
  (index e ∉ mAvailableEntities em) ∧ (index e < length (mEntities em))%nat.
Proof.
  intros (_ & _ & Hh) Hin Hv. apply isValid_true in Hv as (d & Hd & Hgen).
  destruct (Hh e Hin) as (d' & Hd' & _ & Hfree).
  assert (d' = d) as -> by congruence.
  split; [by apply Hfree|]. by eapply lookup_lt_Some.
Qed.

(** Changing the mask of a slot that is not on the free list keeps the
    entity manager well formed. *)
Lemma em_wf_set_mask em hs idx (m : N) :
  em_wf em hs → idx ∉ mAvailableEntities em →
  em_wf (mkEntityManager
           (alter (fun d => mkEntityData (edGeneration d) m) idx (mEntities em))
           (mAvailableEntities em)) hs.
Proof.
  intros (Hnd & Hfree & Hh) Hidx. split_and!; cbn [mEntities mAvailableEntities].
  - done.
  - intros i Hi. destruct (Hfree i Hi) as [Hlt Hm]. rewrite length_alter. split; [done|].
    rewrite mask_at_alter. unfold mask_at in Hm.
    destruct (mEntities em !! i) as [d|]; [|done].
    destruct (decide (idx = i)) as [->|]; [done|]. done.
  - intros h Hin. destruct (Hh h Hin) as (d & Hd & Hle & Hnf).
    destruct (decide (idx = index h)) as [Heq|Hne].
    + exists (mkEntityData (edGeneration d) m). rewrite Heq, list_lookup_alter_eq, Hd.
      done.
    + exists d. by rewrite list_lookup_alter_ne.
Qed.

Lemma mask_at_valid_slot_alter em idx (m : N) :
  (idx < length (mEntities em))%nat →
  mask_at (mkEntityManager
             (alter (fun d => mkEntityData (edGeneration d) m) idx (mEntities em))
             (mAvailableEntities em)) idx = m.
Proof.
  intros Hlt. rewrite mask_at_alter.
  destruct (lookup_lt_is_Some_2 _ _ Hlt) as [d ->]. by rewrite decide_True.
Qed.

Lemma mask_at_other_slot_alter em idx j (f : EntityData → EntityData) fr :
  j ≠ idx →
  mask_at (mkEntityManager (alter f idx (mEntities em)) fr) j = mask_at em j.
Proof.
  intros Hne. rewrite mask_at_alter. unfold mask_at.
  destruct (mEntities em !! j); [|done]. by rewrite decide_False.
Qed.

Lemma inv_add e (cs : list (string * Data)) w hs w' ds :
  world_inv w hs →
  e ∈ hs ∨ EntityManager_isValid e (mEntityManager w) = false →
  World_add e cs w = Ok (w', ds) → world_inv w' hs.
Proof.
  intros (Hcm & Hcons & Hem) Hin [(_ & -> & _)|(Hv & _ & cm' & Hall & ->)]%World_add_Ok;
    [done|].
  destruct Hin as [Hin|Hinvalid]; [|congruence].
  destruct (valid_handle_not_free _ _ _ Hem Hin Hv) as [Hnf Hlt].
  apply add_all_Ok in Hall as (Hreg & Hkeys & Hother & Hout & Hadded).
  split_and!; cbn [mComponentManager mEntityManager].
  - by eapply cm_wf_update.
  - apply (consistent_update w _ _ _ (index e)); [done| |done|].
    + intros j Hj. by apply mask_at_other_slot_alter.
    + intros id Hid. rewrite mask_at_valid_slot_alter by done.
      rewrite set_all_testbit, (Hcons (index e) id Hid).
      destruct (decide (id ∈ ids_of (mTypeToIds (mComponentManager w)) cs.*1)) as [Hy|Hn].
      * destruct (Hadded id Hy) as (T & v & _ & _ & ->). split; eauto.
      * rewrite Hout by done. tauto.
  - by apply em_wf_set_mask.
Qed.

Lemma inv_remove e (ts : list string) w hs w' ds :
  world_inv w hs →
  e ∈ hs ∨ EntityManager_isValid e (mEntityManager w) = false →
  World_remove e ts w = Ok (w', ds) → world_inv w' hs.
Proof.
  intros (Hcm & Hcons & Hem) Hin
    [(_ & -> & _)|(Hv & _ & m' & cm' & Hrem & ->)]%World_remove_Ok; [done|].
  destruct Hin as [Hin|Hinvalid]; [|congruence].
  destruct (valid_handle_not_free _ _ _ Hem Hin Hv) as [Hnf Hlt].
  apply remove_each_Ok in Hrem as (Hreg & Hkeys & Hother & Hout & Hgone & Hmask).
  split_and!; cbn [mComponentManager mEntityManager].
  - by eapply cm_wf_update.
  - apply (consistent_update w _ _ _ (index e)); [done| |done|].
    + intros j Hj. by apply mask_at_other_slot_alter.
    + intros id Hid. rewrite mask_at_valid_slot_alter by done.
      rewrite Hmask, (Hcons (index e) id Hid).
      destruct (decide (id ∈ ids_of (mTypeToIds (mComponentManager w)) ts)) as [Hy|Hn].
      * rewrite (Hgone id Hy). split; [tauto|]. by intros [? [=]].
      * rewrite Hout by done. tauto.
  - by apply em_wf_set_mask.
Qed.

Lemma storage_of_removeAll cm idx id j :
  storage_of (ComponentManager_removeAll idx cm) id !! j
  = if decide (j = idx) then None else storage_of cm id !! j.
Proof.
  unfold storage_of, ComponentManager_removeAll. cbn [mStorages].
  rewrite lookup_fmap. destruct (mStorages cm !! id) as [st|]; cbn.
  - destruct (decide (j = idx)) as [->|]; [by rewrite lookup_delete_eq|].
    by rewrite lookup_delete_ne.
  - by destruct (decide (j = idx)).
Qed.

Lemma inv_destroy e w hs :
  world_inv w hs →
  e ∈ hs ∨ EntityManager_isValid e (mEntityManager w) = false →
  world_inv (World_destroy e w).1 hs.
Proof.
  intros (Hcm & Hcons & Hem) Hin. unfold World_destroy.
  destruct (EntityManager_isValid e (mEntityManager w)) eqn:Hv; cbn [negb fst]; [|done].
  destruct Hin as [Hin|Hinvalid]; [|congruence].
  destruct (valid_handle_not_free _ _ _ Hem Hin Hv) as [Hnf Hlt].
  unfold EntityManager_destroy. rewrite Hv.
  split_and!; cbn [mComponentManager mEntityManager].
  - destruct Hcm as (Hrange & Hinj & Hkeys). split_and!; [done..|].
    intros id Hs. apply Hkeys. cbn [ComponentManager_removeAll mStorages] in Hs.
    rewrite lookup_fmap in Hs. by apply fmap_is_Some in Hs.
  - apply (consistent_update w _ _ _ (index e)); [done|..].
    + intros j Hj. by apply mask_at_other_slot_alter.
    + intros id j Hj. rewrite storage_of_removeAll. by rewrite decide_False.
    + intros id Hid. rewrite storage_of_removeAll, decide_True by done.
      match goal with |- N.testbit ?m _ = true ↔ _ => assert (Hz : m = 0) end.
      { rewrite mask_at_alter.
        destruct (mEntities (mEntityManager w) !! index e); [by rewrite decide_True|done]. }
      rewrite Hz, N.bits_0. split; [done|by intros [? [=]]].
  - destruct Hem as (Hnd & Hfree & Hh). split_and!; cbn [mEntities mAvailableEntities].
    + by constructor.
    + intros i Hi. rewrite length_alter. apply elem_of_cons in Hi as [->|Hi].
      * split; [done|]. rewrite mask_at_alter.
        destruct (mEntities (mEntityManager w) !! index e); [|done].
        by rewrite decide_True.
      * destruct (Hfree i Hi) as [Hl Hm]. split; [done|].
        rewrite mask_at_other_slot_alter; [done|]. intros ->. done.
    + intros h Hh'. destruct (Hh h Hh') as (d & Hd & Hle & Hnfh).
      apply isValid_true in Hv as (de & Hde & Hge).
      destruct (decide (index e = index h)) as [Heq|Hne].
      * rewrite <- Heq. rewrite list_lookup_alter_eq, Hde. cbn.
        eexists. split; [done|]. cbn. rewrite <- Heq in Hd.
        assert (d = de) as -> by congruence. split; [lia|]. lia.
      * exists d. rewrite list_lookup_alter_ne by done. split_and!; [done..|].
        intros Hg. apply not_elem_of_cons. split; [congruence|by apply Hnfh].
Qed.

Lemma EntityManager_create_spec (m : N) em hs :
  em_wf em hs →
  let e := (EntityManager_create m em).1 in
  let em' := (EntityManager_create m em).2 in
  mask_at em (index e) = 0 ∧
  mask_at em' (index e) = m ∧
  (∀ j, j ≠ index e → mask_at em' j = mask_at em j) ∧
  em_wf em' (e :: hs) ∧
  EntityManager_isValid e em' = true.
Proof.
  intros (Hnd & Hfree & Hh). unfold EntityManager_create.
  destruct (mAvailableEntities em) as [|i rest] eqn:Hfr; cbn [fst snd index].
  - (* the arrays grow by one slot *)
    assert (Hnew : (mEntities em ++ [mkEntityData 0 m]) !! length (mEntities em)
                   = Some (mkEntityData 0 m)).
    { rewrite lookup_app_r by lia. by rewrite Nat.sub_diag. }
    split_and!.
    + unfold mask_at. by rewrite lookup_ge_None_2.
    + unfold mask_at. cbn [mEntities]. by rewrite Hnew.
    + intros j Hj. unfold mask_at. cbn [mEntities].
      destruct (decide (j < length (mEntities em))%nat) as [Hlt|Hge].
      * by rewrite lookup_app_l.
      * rewrite (lookup_ge_None_2 (mEntities em)) by lia.
        rewrite lookup_ge_None_2; [done|]. rewrite length_app. cbn. lia.
    + split_and!; cbn [mEntities mAvailableEntities].
      * constructor.
      * by intros i Hi%elem_of_nil.
      * intros h [->|Hin]%elem_of_cons; cbn [index generation].
        -- exists (mkEntityData 0 m). split_and!; [done|done|]. by intros _ Hi%elem_of_nil.
        -- destruct (Hh h Hin) as (d & Hd & Hle & _). exists d. split_and!; [|done|].
           ++ rewrite lookup_app_l; [done|]. by eapply lookup_lt_Some.
           ++ by intros _ Hi%elem_of_nil.
    + apply isValid_true. cbn [mEntities index generation]. eauto.
  - (* an index is taken from the free list *)
    destruct (Hfree i) as [Hlt Hzero]; [by left|].
    destruct (lookup_lt_is_Some_2 _ _ Hlt) as [di Hdi].
    apply NoDup_cons in Hnd as [Hi_rest Hnd_rest].
    rewrite Hdi. cbn [fmap option_fmap option_map default].
    split_and!.
    + done.
    + rewrite mask_at_alter, Hdi. by rewrite decide_True.
    + intros j Hj. by apply mask_at_other_slot_alter.
    + split_and!; cbn [mEntities mAvailableEntities].
      * done.
      * intros j Hj. rewrite length_alter.
        destruct (Hfree j) as [Hjl Hjz]; [by right|]. split; [done|].
        rewrite mask_at_other_slot_alter; [done|]. by intros ->.
      * intros h [->|Hin]%elem_of_cons; cbn [index generation].
        -- exists (mkEntityData (edGeneration di) m).
           rewrite list_lookup_alter_eq, Hdi. done.
        -- destruct (Hh h Hin) as (d & Hd & Hle & Hnf).
           destruct (decide (i = index h)) as [Heq|Hne].
           ++ exists (mkEntityData (edGeneration d) m).
              rewrite Heq, list_lookup_alter_eq, Hd. split_and!; [done..|].
              intros _. by rewrite <- Heq.
           ++ exists d. rewrite list_lookup_alter_ne by done. split_and!; [done..|].
              intros Hg Hr. apply (Hnf Hg). by right.
    + apply isValid_true. cbn [mEntities index generation].
      rewrite list_lookup_alter_eq, Hdi. eauto.
Qed.

Lemma inv_create (cs : list (string * Data)) w hs e w' :
  world_inv w hs → World_create cs w = Ok (e, w') → world_inv w' (e :: hs).
Proof.
  intros (Hcm & Hcons & Hem) (Hall & cm' & Hadd & -> & ->)%World_create_Ok.
  set (m := set_all (0 :: ids_of (mTypeToIds (mComponentManager w)) cs.*1) 0) in *.
  destruct (EntityManager_create_spec m _ _ Hem) as (Hzero & Hnew & Hothers & Hem' & _).
  apply add_all_Ok in Hadd as (Hreg & Hkeys & Hother & Hout & Hadded).
  split_and!; cbn [mComponentManager mEntityManager].
  - by eapply cm_wf_update.
  - apply (consistent_update w _ _ _
             (index (EntityManager_create m (mEntityManager w)).1)); [done..|].
    intros id Hid. rewrite Hnew. unfold m at 1.
    rewrite set_all_testbit, N.bits_0, elem_of_cons.
    destruct (decide (id ∈ ids_of (mTypeToIds (mComponentManager w)) cs.*1)) as [Hy|Hn].
    + destruct (Hadded id Hy) as (T & v & _ & _ & ->). split; eauto.
    + rewrite Hout by done. rewrite <- (Hcons _ id Hid), Hzero, N.bits_0.
      split; [|done]. intros [[=]|[->|?]]; [lia|done].
  - done.
Qed.

Lemma inv_registerResource T (v : Data) w hs :
  world_inv w hs → world_inv (World_registerResource T v w).1 hs.
Proof.
  intros (Hcm & Hcons & Hem). unfold World_registerResource.
  by destruct (ResourceManager_add T v (mResourceManager w)) as [rm ds].
Qed.

Lemma inv_registerComponent T w hs :
  world_inv w hs → world_inv (World_registerComponent T w) hs.
Proof.
  intros (Hcm & Hcons & Hem). unfold World_registerComponent, ComponentManager_registerComponent.
  destruct (mTypeToIds (mComponentManager w) !! T) as [id|] eqn:HT.
  { by destruct w. }
  destruct Hcm as (Hrange & Hinj & Hkeys).
  set (n := size (mTypeToIds (mComponentManager w))) in *.
  assert (Hfresh : mStorages (mComponentManager w) !! (N.of_nat n + 1) = None).
  { apply eq_None_not_Some. intros Hs%Hkeys. lia. }
  split_and!; cbn [mComponentManager mEntityManager]; [| |done].
  - unfold cm_wf. cbn [mTypeToIds mStorages]. rewrite map_size_insert_None by done.
    fold n. split_and!.
    + intros T' id'. rewrite lookup_insert. destruct (decide (T = T')).
      * intros [= <-]. lia.
      * intros Hl%Hrange. lia.
    + intros T1 T2 id'. rewrite !lookup_insert.
      destruct (decide (T = T1)), (decide (T = T2)); try congruence.
      * intros [= <-] Hl%Hrange. lia.
      * intros Hl%Hrange [= <-]. lia.
      * apply Hinj.
    + intros id'. rewrite lookup_insert. destruct (decide (N.of_nat n + 1 = id')).
      * intros _. lia.
      * intros Hl%Hkeys. lia.
  - intros i id' Hid'. cbn [mEntityManager mComponentManager].
    rewrite storage_of_insert. destruct (decide (N.of_nat n + 1 = id')) as [<-|Hne].
    + rewrite (Hcons i _ Hid'). unfold storage_of. rewrite Hfresh. done.
    + rewrite (Hcons i _ Hid'). by destruct (mComponentManager w).
Qed.

Lemma inv_new initialCapacity : world_inv (World_new (Data := Data) initialCapacity) [].
Proof.
  split_and!; cbn.
  - split_and!; cbn; intros *; try rewrite lookup_empty; try done.
  - intros i id Hid. cbn. unfold mask_at, storage_of. cbn.
    rewrite lookup_empty. cbn. rewrite N.bits_0, lookup_empty. split; [done|by intros [? [=]]].
  - split_and!; cbn.
    + constructor.
    + by intros i Hi%elem_of_nil.
    + by intros h Hh%elem_of_nil.
Qed.

Lemma step_inv (s s' : World Data * list Entity) :
  step s s' → world_inv s.1 s.2 → world_inv s'.1 s'.2.
Proof.
  destruct 1; cbn [fst snd]; intros Hinv.
  - by apply inv_registerComponent.
  - by apply inv_registerResource.
  - by eapply inv_create.
  - by eapply inv_add.
  - by eapply inv_remove.
  - by apply inv_destroy.
Qed.

Lemma rtc_step_inv (s s' : World Data * list Entity) :
  rtc step s s' → world_inv s.1 s.2 → world_inv s'.1 s'.2.
Proof. induction 1; [done|]. intros Hinv. eauto using step_inv. Qed.

Lemma reachable_inv w hs : reachable w hs → world_inv w hs.
Proof.
  intros [cap Hrtc]. apply (rtc_step_inv _ _ Hrtc). apply inv_new.
Qed.

(** ** Invalid handles *)

(** C3.  On a handle that is not valid -- its index is out of range or its
    generation is stale -- [add] and [remove] report the error and return
    the world as it was, so no mask and no storage changes, and [has]
    reports the error and answers false.  None of the three asserts, even
    for component types that were never registered. *)
Theorem invalid_entity_is_rejected e w
    (components : list (string * Data)) (types : list string) T :
  (length (mEntities (mEntityManager w)) ≤ index e)%nat
  ∨ (∃ d, mEntities (mEntityManager w) !! index e = Some d
          ∧ edGeneration d ≠ generation e) →
  World_add e components w = Ok (w, [EntityDoesntExist (index e)]) ∧
  World_remove e types w = Ok (w, [EntityDoesntExist (index e)]) ∧
  World_has T e w = Ok (false, [EntityDoesntExist (index e)]).
Proof.
  intros Hinv%isValid_false.
  unfold World_add, World_remove, World_has. by rewrite Hinv.
Qed.

(** ** [has] reads the mask *)

Lemma World_has_valid T e w id :
  EntityManager_isValid e (mEntityManager w) = true →
  mTypeToIds (mComponentManager w) !! T = Some id →
  World_has T e w = Ok (N.testbit (mask_at (mEntityManager w) (index e)) id, []).
Proof.
  intros Hv HT. unfold World_has. rewrite Hv. cbn [negb].
  unfold ComponentManager_getID. rewrite HT. cbn [res_bind]. by rewrite getMask_valid.
Qed.

(** C9.  For a valid entity and a registered type, [has] is the bit of the
    type's ID in the entity's mask; the storages play no part in the
    answer, whatever they hold. *)
Theorem has_tests_mask_bit T e w id :
  EntityManager_isValid e (mEntityManager w) = true →
  mTypeToIds (mComponentManager w) !! T = Some id →
  World_has T e w = Ok (N.testbit (mask_at (mEntityManager w) (index e)) id, []) ∧
  ∀ storages,
    World_has T e
      (mkWorld (mResourceManager w) (mEntityManager w)
         (mkComponentManager (mTypeToIds (mComponentManager w)) storages))
    = World_has T e w.
Proof.
  intros Hv HT. split; [by apply World_has_valid|].
  intros storages. by rewrite !(World_has_valid T _ _ id).
Qed.

(** ** Resources *)

(** C7.  Registering a resource type a second time is reported and changes
    nothing: reading and writing still yield the instance registered
    first. *)
Theorem registerResource_twice_keeps_first T (first second : Data) w :
  mResources (mResourceManager w) !! T = None →
  let r1 := World_registerResource T first w in
  let r2 := World_registerResource T second r1.1 in
  r1.2 = [] ∧
  World_read T r1.1 = Ok first ∧
  r2 = (r1.1, [ResourceAlreadyRegistered T]) ∧
  World_read T r2.1 = Ok first ∧
  World_write T r2.1 = Ok first.
Proof.
  intros Hfresh.
  unfold World_registerResource, ResourceManager_add, World_read, World_write,
    ResourceManager_read, ResourceManager_write.
  rewrite Hfresh. cbn. rewrite !lookup_insert_eq. cbn. by rewrite !lookup_insert_eq.
Qed.

(** ** Generations only grow *)

Lemma generation_le_refl em : generation_le em em.
Proof. intros i d Hd. eauto. Qed.

Lemma generation_le_trans em1 em2 em3 :
  generation_le em1 em2 → generation_le em2 em3 → generation_le em1 em3.
Proof.
  intros H12 H23 i d Hd. destruct (H12 i d Hd) as (d2 & Hd2 & Hle2).
  destruct (H23 i d2 Hd2) as (d3 & Hd3 & Hle3). exists d3. split; [done|lia].
Qed.

Lemma generation_le_alter (f : EntityData → EntityData) idx em fr :
  (∀ d, (edGeneration d ≤ edGeneration (f d))%nat) →
  generation_le em (mkEntityManager (alter f idx (mEntities em)) fr).
Proof.
  intros Hf i d Hd. cbn [mEntities]. destruct (decide (idx = i)) as [->|Hne].
  - exists (f d). by rewrite list_lookup_alter_eq, Hd.
  - exists d. by rewrite list_lookup_alter_ne.
Qed.

Lemma generation_le_create (m : N) em :
  generation_le em (EntityManager_create m em).2.
Proof.
  unfold EntityManager_create. destruct (mAvailableEntities em) as [|i rest]; cbn [snd].
  - intros i d Hd. exists d. cbn [mEntities]. split; [|done].
    rewrite lookup_app_l; [done|]. by eapply lookup_lt_Some.
  - by apply generation_le_alter.
Qed.

Lemma World_op_generation_le w w' :
  World_op w w' → generation_le (mEntityManager w) (mEntityManager w').
Proof.
  destruct 1 as [T w|T v w|cs w e w' Hc|e cs w w' ds Ha|e ts w w' ds Hr|e w].
  - apply generation_le_refl.
  - unfold World_registerResource. destruct (ResourceManager_add _ _ _).
    apply generation_le_refl.
  - apply World_create_Ok in Hc as (_ & cm' & _ & -> & _). apply generation_le_create.
  - apply World_add_Ok in Ha as [(_ & -> & _)|(_ & _ & cm' & _ & ->)].
    + apply generation_le_refl.
    + by apply generation_le_alter.
  - apply World_remove_Ok in Hr as [(_ & -> & _)|(_ & _ & m' & cm' & _ & ->)].
    + apply generation_le_refl.
    + by apply generation_le_alter.
  - unfold World_destroy, EntityManager_destroy.
    destruct (EntityManager_isValid e (mEntityManager w)); cbn [negb fst mEntityManager].
    + apply generation_le_alter. intros d. cbn. lia.
    + apply generation_le_refl.
Qed.

Lemma rtc_World_op_generation_le w w' :
  rtc World_op w w' → generation_le (mEntityManager w) (mEntityManager w').
Proof.
  induction 1 as [|w1 w2 w3 H12 _ IH]; [apply generation_le_refl|].
  eapply generation_le_trans; [by apply World_op_generation_le|done].
Qed.

(** ** The free list stays within the slots *)

Lemma free_in_range_alter (f : EntityData → EntityData) idx em :
  free_in_range em →
  free_in_range (mkEntityManager (alter f idx (mEntities em)) (mAvailableEntities em)).
Proof. intros Hfr i Hi. cbn [mEntities]. rewrite length_alter. by apply Hfr. Qed.

Lemma free_in_range_create (m : N) em :
  free_in_range em → free_in_range (EntityManager_create m em).2.
Proof.
  intros Hfr. unfold EntityManager_create.
  destruct (mAvailableEntities em) as [|i rest] eqn:Hfree; cbn [snd].
  - by intros i Hi%elem_of_nil.
  - intros j Hj. cbn [mEntities mAvailableEntities] in *. rewrite length_alter.
    apply Hfr. rewrite Hfree. by right.
Qed.

Lemma World_op_free_in_range w w' :
  World_op w w' → free_in_range (mEntityManager w) → free_in_range (mEntityManager w').
Proof.
  destruct 1 as [T w|T v w|cs w e w' Hc|e cs w w' ds Ha|e ts w w' ds Hr|e w]; intros Hfr.
  - done.
  - unfold World_registerResource. by destruct (ResourceManager_add _ _ _).
  - apply World_create_Ok in Hc as (_ & cm' & _ & -> & _). by apply free_in_range_create.
  - apply World_add_Ok in Ha as [(_ & -> & _)|(_ & _ & cm' & _ & ->)]; [done|].
    by apply free_in_range_alter.
  - apply World_remove_Ok in Hr as [(_ & -> & _)|(_ & _ & m' & cm' & _ & ->)]; [done|].
    by apply free_in_range_alter.
  - unfold World_destroy, EntityManager_destroy.
    destruct (EntityManager_isValid e (mEntityManager w)) eqn:Hv;
      cbn [negb fst mEntityManager]; [|done].
    intros i Hi. cbn [mEntities mAvailableEntities] in *. rewrite length_alter.
    apply elem_of_cons in Hi as [->|Hi]; [|by apply Hfr].
    apply isValid_true in Hv as (d & Hd & _). by eapply lookup_lt_Some.
Qed.

Lemma produced_free_in_range w : produced w → free_in_range (mEntityManager w).
Proof.
  intros [cap Hrtc].
  assert (Hnew : free_in_range (mEntityManager (World_new (Data := Data) cap))).
  { by intros i Hi%elem_of_nil. }
  revert Hnew. induction Hrtc as [|w1 w2 w3 H12 _ IH]; [done|].
  intros Hfr. apply IH. by eapply World_op_free_in_range.
Qed.

Lemma produced_step w w' : produced w → rtc World_op w w' → produced w'.
Proof. intros [cap Hrtc] Hmore. exists cap. by eapply rtc_trans. Qed.

Lemma step_World_op (s s' : World Data * list Entity) : step s s' → World_op s.1 s'.1.
Proof.
  destruct 1; cbn [fst].
  - apply op_registerComponent.
  - apply op_registerResource.
  - by eapply op_create.
  - by eapply op_add.
  - by eapply op_remove.
  - apply op_destroy.
Qed.

Lemma reachable_produced w hs : reachable w hs → produced w.
Proof.
  intros [cap Hrtc]. exists cap.
  change (rtc World_op (World_new cap, @nil Entity).1 (w, hs).1).
  induction Hrtc as [|s1 s2 s3 H12 _ IH]; [done|].
  eapply rtc_l; [by apply step_World_op|done].
Qed.

(** The handle that [create] returns is valid, and the mask it is given
    is the mask stored at the handle's index. *)
Lemma EntityManager_create_valid (m : N) em :
  free_in_range em →
  EntityManager_isValid (EntityManager_create m em).1 (EntityManager_create m em).2 = true
  ∧ mask_at (EntityManager_create m em).2 (index (EntityManager_create m em).1) = m.
Proof.
  intros Hfr. unfold EntityManager_create.
  destruct (mAvailableEntities em) as [|i rest] eqn:Hfree; cbn [fst snd index].
  - assert (Hnew : (mEntities em ++ [mkEntityData 0 m]) !! length (mEntities em)
                   = Some (mkEntityData 0 m)).
    { rewrite lookup_app_r by lia. by rewrite Nat.sub_diag. }
    split.
    + apply isValid_true. cbn [mEntities index generation]. eauto.
    + unfold mask_at. cbn [mEntities]. by rewrite Hnew.
  - assert (Hlt : (i < length (mEntities em))%nat) by (apply Hfr; rewrite Hfree; by left).
    destruct (lookup_lt_is_Some_2 _ _ Hlt) as [di Hdi].
    rewrite Hdi. cbn [fmap option_fmap option_map default]. split.
    + apply isValid_true. cbn [mEntities index generation].
      rewrite list_lookup_alter_eq, Hdi. eauto.
    + rewrite mask_at_alter, Hdi. by rewrite decide_True.
Qed.

(** C5.  A handle is alive exactly when its generation is the one the
    entity manager currently stores for its index.  Once a live entity has
    been destroyed, whatever is called next and on whatever handles, a
    [create] that hands out the same index returns a handle that is alive
    while the old handle is not. *)
Theorem generation_safety w e :
  (World_isAlive e w = true
   ↔ ∃ d, mEntities (mEntityManager w) !! index e = Some d
          ∧ edGeneration d = generation e) ∧
  (produced w → World_isAlive e w = true →
   ∀ w2 (components : list (string * Data)) e' w3,
     rtc World_op (World_destroy e w).1 w2 →
     World_create components w2 = Ok (e', w3) →
     index e' = index e →
     World_isAlive e w3 = false ∧ World_isAlive e' w3 = true
     ∧ (generation e < generation e')%nat).
Proof.
  split; [apply isValid_true|].
  intros Hprod Halive w2 cs e' w3 Hrtc Hcreate Hidx.
  assert (Hfr2 : free_in_range (mEntityManager w2)).
  { apply produced_free_in_range. eapply produced_step; [done|].
    eapply rtc_l; [apply (op_destroy e)|done]. }
  (* after the destroy the stored generation is past the old handle's *)
  assert (Hd1 : ∃ d1, mEntities (mEntityManager (World_destroy e w).1) !! index e = Some d1
                      ∧ (generation e < edGeneration d1)%nat).
  { unfold World_isAlive in Halive. unfold World_destroy, EntityManager_destroy.
    rewrite Halive. cbn [negb fst mEntityManager mEntities].
    apply isValid_true in Halive as (d & Hd & Hg).
    rewrite list_lookup_alter_eq, Hd. cbn. eexists. split; [done|]. cbn. lia. }
  destruct Hd1 as (d1 & Hd1 & Hlt1).
  destruct (rtc_World_op_generation_le _ _ Hrtc _ _ Hd1) as (d2 & Hd2 & Hle2).
  apply World_create_Ok in Hcreate as (_ & cm' & _ & -> & ->).
  set (m := set_all _ 0) in *.
  destruct (generation_le_create m (mEntityManager w2) _ _ Hd2) as (d3 & Hd3 & Hle3).
  destruct (EntityManager_create_valid m _ Hfr2) as [Hvalid' _].
  unfold World_isAlive. cbn [mEntityManager]. split_and!.
  - apply isValid_false. right. exists d3. split; [done|lia].
  - done.
  - apply isValid_true in Hvalid' as (d' & Hd' & Hg'). rewrite Hidx in Hd'.
    assert (d' = d3) as -> by congruence. lia.
Qed.

(** ** The mask of a new entity *)

Lemma add_all_total idx (cs : list (string * Data)) cm :
  Forall (fun T => is_Some (mTypeToIds cm !! T)) cs.*1 →
  ∃ cm', add_all idx cs cm = Ok cm'.
Proof.
  revert cm. induction cs as [|[T v] cs IH]; intros cm Hall; cbn [add_all].
  - eauto.
  - apply Forall_cons in Hall as [[id HT] Hall]. cbn in HT.
    unfold ComponentManager_add, ComponentManager_getID. rewrite HT. cbn [res_bind].
    apply IH. done.
Qed.

Lemma World_create_total (cs : list (string * Data)) w :
  Forall (fun T => is_Some (mTypeToIds (mComponentManager w) !! T)) cs.*1 →
  ∃ e w', World_create cs w = Ok (e, w').
Proof.
  intros Hall. unfold World_create. rewrite get_ids_total by done. cbn [res_bind].
  destruct (EntityManager_create _ _) as [e em'].
  destruct (add_all_total (index e) cs _ Hall) as [cm' ->]. cbn. eauto.
Qed.

(** C2, as the code has it.  [create] succeeds when the component types
    are registered, and the mask stored for the new entity has bit 0 set
    and, besides it, exactly the bits of the IDs of the component types
    given.  Without components the stored mask is 1: bit 0 alone. *)
Theorem create_mask_is_bit0_and_ids w (components : list (string * Data)) :
  produced w →
  (Forall (fun T => is_Some (mTypeToIds (mComponentManager w) !! T)) components.*1 →
   ∃ e w', World_create components w = Ok (e, w')) ∧
  (∀ e w', World_create components w = Ok (e, w') →
     (∀ b, N.testbit (mask_at (mEntityManager w') (index e)) b = true
           ↔ b = 0 ∨ b ∈ ids_of (mTypeToIds (mComponentManager w)) components.*1) ∧
     (components = [] → mask_at (mEntityManager w') (index e) = 1)).
Proof.
  intros Hprod. split; [apply World_create_total|].
  intros e w' (_ & cm' & _ & -> & ->)%World_create_Ok.
  set (m := set_all _ 0).
  destruct (EntityManager_create_valid m _ (produced_free_in_range _ Hprod)) as [_ Hnew].
  cbn [mEntityManager]. rewrite Hnew. split.
  - intros b. unfold m. rewrite set_all_testbit, N.bits_0, elem_of_cons.
    intuition congruence.
  - intros ->. reflexivity.
Qed.

(** ** Mask and storage agree *)

(** C1, for the runs of [step].  In every world that a run of
    [registerComponent], [registerResource], [create], [add], [remove]
    and [destroy] leads to, where [add], [remove] and [destroy] are called
    on handles that [create] has returned or that are invalid when
    called, for every alive entity and every registered component type,
    [has] answers true exactly when the type's storage holds an entry for
    the entity's index. *)
Theorem mask_storage_consistency w hs e T :
  reachable w hs →
  World_isAlive e w = true →
  is_Some (mTypeToIds (mComponentManager w) !! T) →
  ∃ b, World_has T e w = Ok (b, []) ∧
       ComponentManager_has T (index e) (mComponentManager w) = Ok b ∧
       (b = true ↔ storage_contains T (index e) w).
Proof.
  intros Hreach Halive [id HT].
  destruct (reachable_inv _ _ Hreach) as ((Hrange & _ & _) & Hcons & _).
  destruct (Hrange _ _ HT) as [Hpos _].
  rewrite (World_has_valid T e w id Halive HT).
  eexists. split; [done|].
  unfold ComponentManager_has, ComponentManager_getID, storage_contains.
  rewrite HT. cbn [res_bind]. specialize (Hcons (index e) id Hpos). split.
  - f_equal. destruct (N.testbit _ id) eqn:Hb.
    + rewrite bool_decide_eq_true_2; [done|by apply Hcons].
    + rewrite bool_decide_eq_false_2; [done|]. intros Hs%Hcons. congruence.
  - rewrite Hcons. split; [eauto|]. intros (id' & Hid' & Hs). congruence.
Qed.

(** ** Queries *)

Lemma elem_of_entities_from i (ds : list EntityData) (free : list nat) e :
  e ∈ entities_from i ds free
  ↔ (i ≤ index e)%nat ∧ (index e ∉ free) ∧
    ∃ d, ds !! (index e - i)%nat = Some d ∧ generation e = edGeneration d.
Proof.
  revert i. induction ds as [|d ds IH]; intros i; cbn [entities_from].
  - rewrite elem_of_nil. split; [done|]. by intros (_ & _ & d & [=] & _).
  - rewrite elem_of_app, IH. split.
    + intros [He|(Hle & Hnf & d' & Hd' & Hg)].
      * case_bool_decide; [by apply elem_of_nil in He|].
        apply list_elem_of_singleton in He as ->. cbn [index generation].
        split_and!; [lia|done|]. exists d. by rewrite Nat.sub_diag.
      * split_and!; [lia|done|]. exists d'. split; [|done].
        replace (index e - i)%nat with (S (index e - S i)) by lia. done.
    + intros (Hle & Hnf & d' & Hd' & Hg).
      destruct (decide (index e = i)) as [Heq|Hne].
      * left. rewrite Heq, Nat.sub_diag in Hd'. cbn in Hd'. injection Hd' as ->.
        rewrite bool_decide_eq_false_2 by (by rewrite <- Heq).
        apply list_elem_of_singleton. destruct e as [ie ge]. cbn in *. congruence.
      * right. split_and!; [lia|done|]. exists d'. split; [|done].
        replace (index e - i)%nat with (S (index e - S i)) in Hd' by lia. done.
Qed.

Lemma entities_from_sorted i (ds : list EntityData) (free : list nat) :
  StronglySorted (fun a b => (index a < index b)%nat) (entities_from i ds free).
Proof.
  revert i. induction ds as [|d ds IH]; intros i; cbn [entities_from]; [constructor|].
  case_bool_decide; cbn [app]; [apply IH|].
  constructor; [apply IH|]. apply Forall_forall. intros e He.
  apply elem_of_entities_from in He as [Hle _]. cbn. lia.
Qed.

Lemma StronglySorted_filter {A : Type} (R : A → A → Prop) (f : A → bool) (l : list A) :
  StronglySorted R l → StronglySorted R (List.filter f l).
Proof.
  induction 1 as [|x l Hl IH Hx]; cbn [List.filter]; [constructor|].
  destruct (f x); [|done]. constructor; [done|].
  apply Forall_forall. intros y Hy. rewrite Forall_forall in Hx. apply Hx.
  apply list_elem_of_In in Hy. apply filter_In in Hy as [Hy _]. by apply list_elem_of_In.
Qed.

Lemma Query_matches_true (required excluded mask : N) :
  Query_matches required excluded mask = true
  ↔ N.land mask required = required ∧ N.land mask excluded = 0.
Proof.
  unfold Query_matches. rewrite andb_true_iff, !N.eqb_eq. done.
Qed.

(** C4.  A query yields exactly the live entities whose mask contains every
    required bit and no excluded bit, and yields them by increasing index.
    The live entities are the valid handles of the indices that are not on
    the free list.  In the sample world, whose four entities hold AB, A, B
    and AC, the query that requires A and excludes C yields the first two. *)
Theorem query_matches_in_index_order (required excluded : N) w :
  (∀ e, e ∈ Query_iterate required excluded w
        ↔ e ∈ EntityManager_entities (mEntityManager w)
          ∧ N.land (mask_at (mEntityManager w) (index e)) required = required
          ∧ N.land (mask_at (mEntityManager w) (index e)) excluded = 0) ∧
  StronglySorted (fun a b => (index a < index b)%nat)
    (Query_iterate required excluded w) ∧
  (∀ e, e ∈ EntityManager_entities (mEntityManager w)
        ↔ EntityManager_isValid e (mEntityManager w) = true
          ∧ index e ∉ mAvailableEntities (mEntityManager w)) ∧
  (mask_at (mEntityManager sample_world) <$> [0; 1; 2; 3]%nat = [7; 3; 5; 11]
   ∧ Query_new ["A"] ["C"] sample_world = Ok (2, 8)
   ∧ Query_iterate 2 8 sample_world = [mkEntity 0 0; mkEntity 1 0]).
Proof.
  split; [|split; [|split]].
  - intros e. unfold Query_iterate.
    rewrite list_elem_of_In, filter_In, <- list_elem_of_In, Query_matches_true. tauto.
  - apply StronglySorted_filter, entities_from_sorted.
  - intros e. unfold EntityManager_entities.
    rewrite elem_of_entities_from, isValid_true, Nat.sub_0_r. split.
    + intros (_ & Hnf & d & Hd & Hg). eauto.
    + intros [(d & Hd & Hg) Hnf]. split_and!; [lia|done|eauto].
  - by vm_compute.
Qed.

(** ** What holds after arbitrary calls *)

Lemma mask_backed_update w rm' em' cm' idx :
  mask_backed w →
  (∀ j, j ≠ idx → mask_at em' j = mask_at (mEntityManager w) j) →
  (∀ id j, j ≠ idx → storage_of cm' id !! j = storage_of (mComponentManager w) id !! j) →
  (∀ id, 1 ≤ id → N.testbit (mask_at em' idx) id = true →
         is_Some (storage_of cm' id !! idx)) →
  mask_backed (mkWorld rm' em' cm').
Proof.
  intros Hb Hmask Hst Hidx i id Hid. cbn [mEntityManager mComponentManager].
  destruct (decide (i = idx)) as [->|Hne]; [by apply Hidx|].
  rewrite Hmask, Hst by done. by apply Hb.
Qed.

Lemma EntityManager_create_others (m : N) em j :
  j ≠ index (EntityManager_create m em).1 →
  mask_at (EntityManager_create m em).2 j = mask_at em j.
Proof.
  unfold EntityManager_create.
  destruct (mAvailableEntities em) as [|i rest]; cbn [fst snd index]; intros Hj.
  - unfold mask_at. cbn [mEntities].
    destruct (decide (j < length (mEntities em))%nat) as [Hlt|Hge].
    + by rewrite lookup_app_l.
    + rewrite (lookup_ge_None_2 (mEntities em)) by lia.
      rewrite lookup_ge_None_2; [done|]. rewrite length_app. cbn. lia.
  - by apply mask_at_other_slot_alter.
Qed.

Lemma sound_create (cs : list (string * Data)) w e w' :
  world_sound w → World_create cs w = Ok (e, w') → world_sound w'.
Proof.
  intros (Hcm & Hb & Hfr) (Hall & cm' & Hadd & -> & ->)%World_create_Ok.
  set (m := set_all (0 :: ids_of (mTypeToIds (mComponentManager w)) cs.*1) 0) in *.
  destruct (EntityManager_create_valid m _ Hfr) as [_ Hnew].
  apply add_all_Ok in Hadd as (Hreg & Hkeys & Hother & Hout & Hadded).
  split_and!; cbn [mComponentManager mEntityManager].
  - by eapply cm_wf_update.
  - apply (mask_backed_update w _ _ _
             (index (EntityManager_create m (mEntityManager w)).1)); [done| |done|].
    + intros j Hj. by apply EntityManager_create_others.
    + intros id Hid. rewrite Hnew. unfold m at 1.
      rewrite set_all_testbit, N.bits_0, elem_of_cons.
      intros [[=]|[->|Hin]]; [lia|].
      destruct (Hadded id Hin) as (T & v & _ & _ & ->). eauto.
  - by apply free_in_range_create.
Qed.

Lemma sound_add e (cs : list (string * Data)) w w' ds :
  world_sound w → World_add e cs w = Ok (w', ds) → world_sound w'.
Proof.
  intros (Hcm & Hb & Hfr) [(_ & -> & _)|(Hv & _ & cm' & Hall & ->)]%World_add_Ok; [done|].
  assert (Hlt : (index e < length (mEntities (mEntityManager w)))%nat).
  { apply isValid_true in Hv as (d & Hd & _). by eapply lookup_lt_Some. }
  apply add_all_Ok in Hall as (Hreg & Hkeys & Hother & Hout & Hadded).
  split_and!; cbn [mComponentManager mEntityManager].
  - by eapply cm_wf_update.
  - apply (mask_backed_update w _ _ _ (index e)); [done| |done|].
    + intros j Hj. by apply mask_at_other_slot_alter.
    + intros id Hid. rewrite mask_at_valid_slot_alter by done. rewrite set_all_testbit.
      destruct (decide (id ∈ ids_of (mTypeToIds (mComponentManager w)) cs.*1)) as [Hy|Hn].
      * destruct (Hadded id Hy) as (T & v & _ & _ & ->). eauto.
      * rewrite Hout by done. intros [Hold|?]; [|done]. by apply Hb.
  - by apply free_in_range_alter.
Qed.

Lemma sound_remove e (ts : list string) w w' ds :
  world_sound w → World_remove e ts w = Ok (w', ds) → world_sound w'.
Proof.
  intros (Hcm & Hb & Hfr)
    [(_ & -> & _)|(Hv & _ & m' & cm' & Hrem & ->)]%World_remove_Ok; [done|].
  assert (Hlt : (index e < length (mEntities (mEntityManager w)))%nat).
  { apply isValid_true in Hv as (d & Hd & _). by eapply lookup_lt_Some. }
  apply remove_each_Ok in Hrem as (Hreg & Hkeys & Hother & Hout & Hgone & Hmask).
  split_and!; cbn [mComponentManager mEntityManager].
  - by eapply cm_wf_update.
  - apply (mask_backed_update w _ _ _ (index e)); [done| |done|].
    + intros j Hj. by apply mask_at_other_slot_alter.
    + intros id Hid. rewrite mask_at_valid_slot_alter by done. rewrite Hmask.
      intros [Hold Hn]. rewrite Hout by done. by apply Hb.
  - by apply free_in_range_alter.
Qed.

Lemma sound_destroy e w : world_sound w → world_sound (World_destroy e w).1.
Proof.
  intros Hs. pose proof Hs as (Hcm & Hb & Hfr).
  split_and!; [| |by apply (World_op_free_in_range w _ (op_destroy e w))].
  - unfold World_destroy.
    destruct (EntityManager_isValid e (mEntityManager w)); cbn [negb fst]; [|done].
    cbn [mComponentManager]. destruct Hcm as (Hrange & Hinj & Hkeys).
    split_and!; [done..|].
    intros id Hsome. apply Hkeys. cbn [ComponentManager_removeAll mStorages] in Hsome.
    rewrite lookup_fmap in Hsome. by apply fmap_is_Some in Hsome.
  - unfold World_destroy.
    destruct (EntityManager_isValid e (mEntityManager w)) eqn:Hv; cbn [negb fst]; [|done].
    unfold EntityManager_destroy. rewrite Hv.
    apply (mask_backed_update w _ _ _ (index e)); [done|..].
    + intros j Hj. by apply mask_at_other_slot_alter.
    + intros id j Hj. rewrite storage_of_removeAll. by rewrite decide_False.
    + intros id Hid.
      match goal with |- N.testbit ?m _ = true → _ => assert (Hz : m = 0) end.
      { rewrite mask_at_alter.
        destruct (mEntities (mEntityManager w) !! index e); [by rewrite decide_True|done]. }
      by rewrite Hz, N.bits_0.
Qed.

Lemma sound_registerComponent T w :
  world_sound w → world_sound (World_registerComponent T w).
Proof.
  intros (Hcm & Hb & Hfr). unfold World_registerComponent, ComponentManager_registerComponent.
  destruct (mTypeToIds (mComponentManager w) !! T) as [id|] eqn:HT.
  { by destruct w. }
  destruct Hcm as (Hrange & Hinj & Hkeys).
  set (n := size (mTypeToIds (mComponentManager w))) in *.
  assert (Hfresh : mStorages (mComponentManager w) !! (N.of_nat n + 1) = None).
  { apply eq_None_not_Some. intros Hs%Hkeys. lia. }
  split_and!; cbn [mComponentManager mEntityManager]; [| |done].
  - unfold cm_wf. cbn [mTypeToIds mStorages]. rewrite map_size_insert_None by done.
    fold n. split_and!.
    + intros T' id'. rewrite lookup_insert. destruct (decide (T = T')).
      * intros [= <-]. lia.
      * intros Hl%Hrange. lia.
    + intros T1 T2 id'. rewrite !lookup_insert.
      destruct (decide (T = T1)), (decide (T = T2)); try congruence.
      * intros [= <-] Hl%Hrange. lia.
      * intros Hl%Hrange [= <-]. lia.
      * apply Hinj.
    + intros id'. rewrite lookup_insert. destruct (decide (N.of_nat n + 1 = id')).
      * intros _. lia.
      * intros Hl%Hkeys. lia.
  - intros i id' Hid' Hbit. cbn [mEntityManager mComponentManager] in *.
    specialize (Hb i id' Hid' Hbit).
    rewrite storage_of_insert. destruct (decide (N.of_nat n + 1 = id')) as [<-|Hne].
    + unfold storage_of in Hb. rewrite Hfresh in Hb. cbn in Hb.
      rewrite lookup_empty in Hb. by destruct Hb.
    + by destruct (mComponentManager w).
Qed.

Lemma World_op_sound w w' : World_op w w' → world_sound w → world_sound w'.
Proof.
  destruct 1 as [T w|T v w|cs w e w' Hc|e cs w w' ds Ha|e ts w w' ds Hr|e w]; intros Hs.
  - by apply sound_registerComponent.
  - unfold World_registerResource. by destruct (ResourceManager_add _ _ _).
  - by eapply sound_create.
  - by eapply sound_add.
  - by eapply sound_remove.
  - by apply sound_destroy.
Qed.

Lemma produced_sound w : produced w → world_sound w.
Proof.
  intros [cap Hrtc].
  assert (Hnew : world_sound (World_new (Data := Data) cap)).
  { split_and!.
    - split_and!; cbn; intros *; try rewrite lookup_empty; done.
    - intros i id _. unfold mask_at. cbn. by rewrite N.bits_0.
    - by intros i Hi%elem_of_nil. }
  revert Hnew. induction Hrtc as [|w1 w2 w3 H12 _ IH]; [done|].
  intros Hs. apply IH. by eapply World_op_sound.
Qed.

(** ** Packages *)

Lemma elem_of_World_pack e w T (v : Data) :
  (T, v) ∈ World_pack e w
  ↔ ∃ id, mTypeToIds (mComponentManager w) !! T = Some id
          ∧ N.testbit (EntityManager_getMask e (mEntityManager w)).1 id = true
          ∧ storage_of (mComponentManager w) id !! index e = Some v.
Proof.
  unfold World_pack. rewrite list_elem_of_omap. split.
  - intros ([T' id] & Hin & Hf). apply elem_of_map_to_list in Hin.
    destruct (N.testbit _ id) eqn:Hb; [|done].
    destruct (storage_of _ id !! index e) as [v'|] eqn:Hv; [|done].
    cbn in Hf. injection Hf as <- <-. eauto.
  - intros (id & HT & Hb & Hv). exists (T, id). split; [by apply elem_of_map_to_list|].
    by rewrite Hb, Hv.
Qed.

Lemma isValid_set_mask e em idx (m : N) fr :
  EntityManager_isValid e
    (mkEntityManager
       (alter (fun d => mkEntityData (edGeneration d) m) idx (mEntities em)) fr)
  = EntityManager_isValid e em.
Proof.
  unfold EntityManager_isValid. cbn [mEntities].
  destruct (decide (idx = index e)) as [->|Hne].
  - rewrite list_lookup_alter_eq. by destruct (mEntities em !! index e).
  - by rewrite list_lookup_alter_ne.
Qed.

Lemma filter_all {A : Type} (f : A → bool) (l : list A) :
  Forall (fun x => f x = true) l → List.filter f l = l.
Proof. induction 1 as [|x l Hx _ IH]; cbn; [done|]. by rewrite Hx, IH. Qed.

Lemma all_types_registered (reg : gmap string N) :
  Forall (fun T => is_Some (reg !! T)) (map_to_list reg).*1.
Proof.
  apply Forall_forall. intros T ([T' id] & -> & Hin)%list_elem_of_fmap.
  apply elem_of_map_to_list in Hin. cbn. eauto.
Qed.

Lemma registered_id_in_all (reg : gmap string N) T id :
  reg !! T = Some id → id ∈ ids_of reg (map_to_list reg).*1.
Proof.
  intros HT. apply ids_of_registered. exists T. split; [|done].
  apply list_elem_of_fmap. exists (T, id). split; [done|]. by apply elem_of_map_to_list.
Qed.

(** What [unpack] leaves behind on a valid entity: the world, the mask of
    the entity and the storages at its index. *)
Lemma World_unpack_valid f (p : list (string * Data)) w :
  cm_wf (mComponentManager w) →
  EntityManager_isValid f (mEntityManager w) = true →
  let reg := mTypeToIds (mComponentManager w) in
  let known := List.filter (fun c => bool_decide (is_Some (reg !! c.1))) p in
  ∃ w',
    World_unpack f p w = Ok (bool_decide (length known = length p), w', []) ∧
    mTypeToIds (mComponentManager w') = reg ∧
    EntityManager_isValid f (mEntityManager w') = true ∧
    (∀ T id, reg !! T = Some id →
       (N.testbit (mask_at (mEntityManager w') (index f)) id = true ↔ T ∈ p.*1) ∧
       (id ∉ ids_of reg known.*1 →
          storage_of (mComponentManager w') id !! index f = None) ∧
       (id ∈ ids_of reg known.*1 →
          ∃ T' v, (T', v) ∈ known ∧ reg !! T' = Some id ∧
                  storage_of (mComponentManager w') id !! index f = Some v)).
Proof.
  intros (Hrange & Hinj & _) Hv reg known. unfold World_unpack.
  rewrite Hv. cbn [negb]. fold reg. fold known.
  (* clear *)
  destruct (remove_each_total (index f) (map_to_list reg).*1
              (mask_at (mEntityManager w) (index f)) (mComponentManager w)
              (all_types_registered reg)) as (m1 & cm1 & Hrem).
  assert (Hr1 : World_remove f (map_to_list reg).*1 w
                = Ok (mkWorld (mResourceManager w)
                        (mkEntityManager
                           (alter (fun d => mkEntityData (edGeneration d) m1) (index f)
                              (mEntities (mEntityManager w)))
                           (mAvailableEntities (mEntityManager w))) cm1, [])).
  { unfold World_remove. rewrite Hv. cbn [negb]. rewrite getMask_valid by done.
    rewrite Hrem. cbn [res_bind fst snd]. by rewrite setMask_valid. }
  rewrite Hr1. cbn [res_bind fst snd].
  apply remove_each_Ok in Hrem as (Hreg1 & _ & _ & _ & Hgone & Hmask1).
  set (w1 := mkWorld _ _ cm1).
  assert (Hv1 : EntityManager_isValid f (mEntityManager w1) = true).
  { unfold w1. cbn [mEntityManager]. by rewrite isValid_set_mask. }
  assert (Hlt : (index f < length (mEntities (mEntityManager w)))%nat).
  { apply isValid_true in Hv as (d & Hd & _). by eapply lookup_lt_Some. }
  (* apply *)
  assert (Hknown : Forall (fun T => is_Some (mTypeToIds (mComponentManager w1) !! T))
                     known.*1).
  { unfold w1. cbn [mComponentManager]. rewrite Hreg1. apply Forall_forall.
    intros T ([T' v] & -> & Hin)%list_elem_of_fmap.
    apply list_elem_of_In, filter_In in Hin as [_ Hb]. by apply bool_decide_eq_true in Hb. }
  destruct (add_each_total (index f) known (mask_at (mEntityManager w1) (index f))
              (mComponentManager w1) Hknown) as (m2 & cm2 & Hadd).
  assert (Hr2 : World_add f known w1
                = Ok (mkWorld (mResourceManager w1)
                        (mkEntityManager
                           (alter (fun d => mkEntityData (edGeneration d) m2) (index f)
                              (mEntities (mEntityManager w1)))
                           (mAvailableEntities (mEntityManager w1))) cm2, [])).
  { unfold World_add. rewrite Hv1. cbn [negb]. rewrite getMask_valid by done.
    rewrite Hadd. cbn [res_bind fst snd]. by rewrite setMask_valid. }
  rewrite Hr2. cbn [res_bind fst snd app].
  apply add_each_Ok in Hadd as [Hall ->].
  apply add_all_Ok in Hall as (Hreg2 & _ & _ & Hout & Hadded).
  assert (Hregw1 : mTypeToIds (mComponentManager w1) = reg) by done.
  rewrite Hregw1 in *.
  eexists. split; [done|]. cbn [mComponentManager mEntityManager].
  split; [done|]. split; [by rewrite isValid_set_mask|].
  intros T id HT.
  assert (Hall_ids : id ∈ ids_of reg (map_to_list reg).*1)
    by by eapply registered_id_in_all.
  split_and!.
  - rewrite mask_at_valid_slot_alter by (unfold w1; cbn; by rewrite length_alter).
    rewrite set_all_testbit. unfold w1 at 1. cbn [mEntityManager].
    rewrite mask_at_valid_slot_alter by done. rewrite Hmask1.
    rewrite (ids_of_registered reg known.*1). split.
    + intros [[_ Hnot]|(T' & HT' & Hid')]; [done|].
      assert (T' = T) as -> by by eapply Hinj.
      apply list_elem_of_fmap in HT' as ([T2 v] & -> & Hin).
      apply list_elem_of_In, filter_In in Hin as [Hin _].
      apply list_elem_of_fmap. exists (T2, v). split; [done|]. by apply list_elem_of_In.
    + intros ([T2 v] & -> & Hin)%list_elem_of_fmap. right. exists T2. split; [|done].
      apply list_elem_of_fmap. exists (T2, v). split; [done|].
      apply list_elem_of_In, filter_In. split; [by apply list_elem_of_In|].
      apply bool_decide_eq_true. cbn [fst] in *. unfold reg in *. rewrite HT. eauto.
  - intros Hnot. rewrite Hout by done. unfold w1. cbn [mComponentManager]. by apply Hgone.
  - intros Hin. by apply Hadded.
Qed.

Lemma bool_eq_bool_decide (b : bool) (P : Prop) `{Decision P} :
  (b = true ↔ P) → b = bool_decide P.
Proof.
  intros HP. destruct b.
  - symmetry. apply bool_decide_eq_true_2. by apply HP.
  - symmetry. apply bool_decide_eq_false_2. intros HP'%HP. done.
Qed.

(** Among the fields of a package, the registered ones carry the ID of a
    registered type exactly when the package names that type. *)
Lemma known_ids_iff (reg : gmap string N) (p : list (string * Data)) T id :
  (∀ T1 T2 id, reg !! T1 = Some id → reg !! T2 = Some id → T1 = T2) →
  reg !! T = Some id →
  id ∈ ids_of reg (List.filter (fun c => bool_decide (is_Some (reg !! c.1))) p).*1
  ↔ T ∈ p.*1.
Proof.
  intros Hinj HT. rewrite ids_of_registered. split.
  - intros (T' & HT' & Hid').
    assert (T' = T) as -> by by eapply Hinj.
    apply list_elem_of_fmap in HT' as ([T2 v] & -> & Hin).
    apply list_elem_of_In, filter_In in Hin as [Hin _].
    apply list_elem_of_fmap. exists (T2, v). split; [done|]. by apply list_elem_of_In.
  - intros ([T2 v] & -> & Hin)%list_elem_of_fmap. exists T2. split; [|done].
    apply list_elem_of_fmap. exists (T2, v). split; [done|].
    apply list_elem_of_In, filter_In. split; [by apply list_elem_of_In|].
    apply bool_decide_eq_true. cbn [fst] in *. rewrite HT. eauto.
Qed.

(** C6.  [pack] lists exactly the components whose mask bits are set, with
    the values the storages hold.  [unpack] replaces: afterwards the
    entity has a registered component exactly when the package names it,
    whatever the entity held before; the storage of every registered type
    that the package does not name holds nothing for the entity any more,
    and the storage of every type it names holds a value of the package.
    Unpacking the package of an entity gives the target the same
    components with the same values, and nothing else. *)
Theorem pack_unpack_contract w e f :
  produced w →
  World_isAlive e w = true →
  World_isAlive f w = true →
  let reg := mTypeToIds (mComponentManager w) in
  (∀ T v, (T, v) ∈ World_pack e w
          ↔ ∃ id, reg !! T = Some id
                  ∧ N.testbit (mask_at (mEntityManager w) (index e)) id = true
                  ∧ storage_of (mComponentManager w) id !! index e = Some v) ∧
  (∀ T, is_Some (reg !! T) →
        World_has T e w = Ok (bool_decide (T ∈ (World_pack e w).*1), [])) ∧
  (∀ p : list (string * Data), ∃ ok w',
        World_unpack f p w = Ok (ok, w', []) ∧
        World_isAlive f w' = true ∧
        ∀ T, is_Some (reg !! T) →
             World_has T f w' = Ok (bool_decide (T ∈ p.*1), []) ∧
             (T ∉ p.*1 →
                ComponentManager_has T (index f) (mComponentManager w') = Ok false ∧
                ComponentManager_get T (index f) (mComponentManager w') = Ok None) ∧
             (T ∈ p.*1 →
                ComponentManager_has T (index f) (mComponentManager w') = Ok true ∧
                ∃ v, (T, v) ∈ p ∧
                     ComponentManager_get T (index f) (mComponentManager w')
                     = Ok (Some v))) ∧
  (∃ w', World_unpack f (World_pack e w) w = Ok (true, w', []) ∧
        (∀ T, is_Some (reg !! T) →
              World_has T f w' = World_has T e w ∧
              (T ∉ (World_pack e w).*1 →
                 ComponentManager_has T (index f) (mComponentManager w') = Ok false ∧
                 ComponentManager_get T (index f) (mComponentManager w') = Ok None)) ∧
        (∀ T v, (T, v) ∈ World_pack e w →
                ComponentManager_get T (index f) (mComponentManager w') = Ok (Some v))).
Proof.
  intros Hprod He Hf reg. subst reg. unfold World_isAlive in *.
  destruct (produced_sound _ Hprod) as (Hcm & Hb & _).
  pose proof Hcm as (Hrange & Hinj & _).
  assert (Hpack : ∀ T v, (T, v) ∈ World_pack e w
          ↔ ∃ id, mTypeToIds (mComponentManager w) !! T = Some id
                  ∧ N.testbit (mask_at (mEntityManager w) (index e)) id = true
                  ∧ storage_of (mComponentManager w) id !! index e = Some v).
  { intros T v. rewrite elem_of_World_pack. by rewrite getMask_valid. }
  assert (Hpack1 : ∀ T id, mTypeToIds (mComponentManager w) !! T = Some id →
            N.testbit (mask_at (mEntityManager w) (index e)) id = true
            ↔ T ∈ (World_pack e w).*1).
  { intros T id HT. destruct (Hrange _ _ HT) as [Hpos _]. split.
    - intros Hbit. destruct (Hb _ _ Hpos Hbit) as [v Hv].
      apply list_elem_of_fmap. exists (T, v). split; [done|]. apply Hpack. eauto.
    - intros ([T' v] & -> & Hin)%list_elem_of_fmap.
      apply Hpack in Hin as (id' & HT' & Hbit & _). cbn in HT. congruence. }
  assert (Hhas_e : ∀ T, is_Some (mTypeToIds (mComponentManager w) !! T) →
            World_has T e w = Ok (bool_decide (T ∈ (World_pack e w).*1), [])).
  { intros T [id HT]. rewrite (World_has_valid T e w id He HT).
    do 2 f_equal. apply bool_eq_bool_decide. by apply Hpack1. }
  (* what any unpack leaves in the mask and in the storages *)
  assert (Hunpack : ∀ p : list (string * Data), ∃ ok w',
        World_unpack f p w = Ok (ok, w', []) ∧
        (ok = bool_decide
                (length (List.filter
                           (fun c => bool_decide
                              (is_Some (mTypeToIds (mComponentManager w) !! c.1))) p)
                 = length p)) ∧
        EntityManager_isValid f (mEntityManager w') = true ∧
        ∀ T, is_Some (mTypeToIds (mComponentManager w) !! T) →
             World_has T f w' = Ok (bool_decide (T ∈ p.*1), []) ∧
             (T ∉ p.*1 →
                ComponentManager_has T (index f) (mComponentManager w') = Ok false ∧
                ComponentManager_get T (index f) (mComponentManager w') = Ok None) ∧
             (T ∈ p.*1 →
                ComponentManager_has T (index f) (mComponentManager w') = Ok true ∧
                ∃ v, (T, v) ∈ p ∧
                     ComponentManager_get T (index f) (mComponentManager w')
                     = Ok (Some v))).
  { intros p. destruct (World_unpack_valid f p w Hcm Hf) as (w' & Hu & Hreg' & Hv' & Hres).
    eexists _, w'. split_and!; [done..|]. intros T [id HT].
    destruct (Hres T id HT) as (Hbit & Hnone & Hsome).
    pose proof (known_ids_iff _ p T id Hinj HT) as Hids.
    assert (HT' : mTypeToIds (mComponentManager w') !! T = Some id) by by rewrite Hreg'.
    unfold ComponentManager_has, ComponentManager_get, ComponentManager_getID.
    rewrite HT'. cbn [res_bind]. split_and!.
    - rewrite (World_has_valid T f w' id Hv' HT').
      do 2 f_equal. by apply bool_eq_bool_decide.
    - intros Hnot. rewrite Hnone by (by rewrite Hids). split; [|done].
      f_equal; try (apply bool_decide_eq_false_2; by intros [? [=]]).
    - intros Hin. destruct Hsome as (T' & v & Hin' & HT'' & ->); [by apply Hids|].
      assert (T' = T) as -> by by eapply Hinj.
      split; [f_equal; try (apply bool_decide_eq_true_2; eauto)|].
      exists v. split; [|done].
      apply list_elem_of_In, filter_In in Hin' as [Hin' _]. by apply list_elem_of_In. }
  split; [done|]. split; [done|]. split.
  { intros p. destruct (Hunpack p) as (ok & w' & Hu & _ & Hv' & Hobs). eauto 10. }
  destruct (Hunpack (World_pack e w)) as (ok & w' & Hu & Hok & Hv' & Hobs).
  assert (Hknown : List.filter
                     (fun c => bool_decide (is_Some (mTypeToIds (mComponentManager w) !! c.1)))
                     (World_pack e w) = World_pack e w).
  { apply filter_all, Forall_forall. intros [T v] Hin.
    apply Hpack in Hin as (id & HT & _). apply bool_decide_eq_true. cbn. eauto. }
  rewrite Hknown, bool_decide_eq_true_2 in Hok by done. subst ok.
  exists w'. split; [done|]. split.
  - intros T Hreg. destruct (Hobs T Hreg) as (Hhas & Hgone & _).
    split; [by rewrite Hhas, (Hhas_e T Hreg)|done].
  - intros T v Hin. pose proof Hin as (id & HT & Hbit & Hv)%Hpack.
    assert (HinT : T ∈ (World_pack e w).*1).
    { apply list_elem_of_fmap. by exists (T, v). }
    destruct (Hobs T (ex_intro _ id HT)) as (_ & _ & Hstored).
    destruct (Hstored HinT) as (_ & v' & Hin' & ->).
    apply Hpack in Hin' as (id' & HT' & _ & Hstored').
    assert (id' = id) as -> by congruence. congruence.
Qed.

End WorldFacts.

(** * The theorems at work on the sample worlds *)

Lemma step_created (components : list (string * Z)) (w : Ecs.World Z) hs :
  is_ok (Ecs.World_create components w) = true →
  Ecs.step (w, hs) ((Ecs.created components w).2, (Ecs.created components w).1 :: hs).
Proof.
  unfold Ecs.created. destruct (Ecs.World_create components w) as [[e w']|] eqn:Hc; [|done].
  intros _. by eapply Ecs.step_create.
Qed.

Lemma sample_registry_reachable : Ecs.reachable Ecs.sample_registry [].
Proof.
  exists 1024%nat. unfold Ecs.sample_registry.
  eapply rtc_l; [apply (Ecs.step_registerComponent "A")|].
  eapply rtc_l; [apply (Ecs.step_registerComponent "B")|].
  eapply rtc_l; [apply (Ecs.step_registerComponent "C")|].
  apply rtc_refl.
Qed.

Lemma sample_world_reachable : Ecs.reachable Ecs.sample_world Ecs.sample_handles.
Proof.
  destruct sample_registry_reachable as [cap Hreg]. exists cap.
  eapply rtc_trans; [exact Hreg|]. unfold Ecs.sample_world.
  eapply rtc_l; [apply (step_created [("A", 1); ("B", 2)]%Z); by vm_compute|].
  eapply rtc_l; [apply (step_created [("A", 3)]%Z); by vm_compute|].
  eapply rtc_l; [apply (step_created [("B", 4)]%Z); by vm_compute|].
  eapply rtc_l; [apply (step_created [("A", 5); ("C", 6)]%Z); by vm_compute|].
  apply rtc_refl.
Qed.

Section Witnesses.
Import Ecs.

(** C1 without the proviso on handles fails.  An entity is created and
    destroyed; its slot is free and its stored generation is 1.  [add] is
    then called on the handle (index 0, generation 1), which no [create]
    has returned yet but which [isValid] accepts; it stores a component A
    at index 0.  The next [create] hands out that very handle with an
    empty component set and leaves the storage alone: [has] answers false
    for A while A's storage holds an entry for the entity's index. *)
Lemma made_up_handle_breaks_consistency :
  ∃ e0 w1 w3 e1 w4,
    World_create (Data := Z) [] sample_registry = Ok (e0, w1) ∧
    World_isAlive (mkEntity 0 1) (World_destroy e0 w1).1 = true ∧
    World_add (mkEntity 0 1) [("A", 7%Z)] (World_destroy e0 w1).1 = Ok (w3, []) ∧
    World_create [] w3 = Ok (e1, w4) ∧
    e1 = mkEntity 0 1 ∧
    World_isAlive e1 w4 = true ∧
    World_has "A" e1 w4 = Ok (false, []) ∧
    ComponentManager_has "A" (index e1) (mComponentManager w4) = Ok true.
Proof.
  do 5 eexists.
  split; [by vm_compute|]. split; [by vm_compute|].
  split; [by vm_compute|]. split; [by vm_compute|].
  by vm_compute.
Qed.

Lemma mask_storage_consistency_witness :
  reachable sample_world sample_handles ∧
  World_isAlive (mkEntity 0 0) sample_world = true ∧
  is_Some (mTypeToIds (mComponentManager sample_world) !! "C") ∧
  ∃ b, World_has "C" (mkEntity 0 0) sample_world = Ok (b, []) ∧
       ComponentManager_has "C" 0 (mComponentManager sample_world) = Ok b ∧
       (b = true ↔ storage_contains "C" 0 sample_world).
Proof.
  assert (Hreg : is_Some (mTypeToIds (mComponentManager sample_world) !! "C")).
  { exists 3. by vm_compute. }
  split_and!; [apply sample_world_reachable|reflexivity|exact Hreg|].
  exact (mask_storage_consistency sample_world sample_handles (mkEntity 0 0) "C"
           sample_world_reachable eq_refl Hreg).
Defined.

(** C2 with "no other bit set" fails: a new entity without components
    does have a bit set in its mask -- bit 0 -- and an entity created with
    component A (whose ID is 1) has bit 0 set besides the bit of A. *)
Lemma create_sets_bit0_besides_ids :
  World_create (Data := Z) [] sample_registry
  = Ok (created [] sample_registry) ∧
  mask_at (mEntityManager (created [] sample_registry).2)
    (index (created [] sample_registry).1) = 1 ∧
  N.testbit (mask_at (mEntityManager (created [] sample_registry).2)
               (index (created [] sample_registry).1)) 0 = true ∧
  ids_of (mTypeToIds (mComponentManager sample_registry)) [] = [] ∧
  World_create [("A", 1%Z)] sample_registry
  = Ok (created [("A", 1%Z)] sample_registry) ∧
  ids_of (mTypeToIds (mComponentManager sample_registry)) ["A"] = [1] ∧
  mask_at (mEntityManager (created [("A", 1%Z)] sample_registry).2)
    (index (created [("A", 1%Z)] sample_registry).1) = 3.
Proof. by vm_compute. Qed.

Lemma create_mask_is_bit0_and_ids_witness :
  produced sample_registry ∧
  (Forall (fun T => is_Some (mTypeToIds (mComponentManager sample_registry) !! T))
     [("A", 1%Z); ("C", 2%Z)].*1 →
   ∃ e w', World_create [("A", 1%Z); ("C", 2%Z)] sample_registry = Ok (e, w')) ∧
  (∀ e w', World_create [("A", 1%Z); ("C", 2%Z)] sample_registry = Ok (e, w') →
     (∀ b, N.testbit (mask_at (mEntityManager w') (index e)) b = true
           ↔ b = 0 ∨ b ∈ ids_of (mTypeToIds (mComponentManager sample_registry))
                          [("A", 1%Z); ("C", 2%Z)].*1) ∧
     ([("A", 1%Z); ("C", 2%Z)] = [] → mask_at (mEntityManager w') (index e) = 1)).
Proof.
  split; [exact (reachable_produced _ _ sample_registry_reachable)|].
  exact (create_mask_is_bit0_and_ids sample_registry [("A", 1%Z); ("C", 2%Z)]
           (reachable_produced _ _ sample_registry_reachable)).
Defined.

Lemma invalid_entity_is_rejected_witness :
  ((length (mEntities (mEntityManager sample_world)) ≤ index (mkEntity 1 5))%nat
   ∨ ∃ d, mEntities (mEntityManager sample_world) !! index (mkEntity 1 5) = Some d
          ∧ edGeneration d ≠ generation (mkEntity 1 5)) ∧
  World_add (mkEntity 1 5) [("B", 9%Z)] sample_world
  = Ok (sample_world, [EntityDoesntExist 1]) ∧
  World_remove (mkEntity 1 5) ["A"] sample_world
  = Ok (sample_world, [EntityDoesntExist 1]) ∧
  World_has "A" (mkEntity 1 5) sample_world = Ok (false, [EntityDoesntExist 1]).
Proof.
  assert (Hstale : (length (mEntities (mEntityManager sample_world))
                    ≤ index (mkEntity 1 5))%nat
            ∨ ∃ d, mEntities (mEntityManager sample_world) !! index (mkEntity 1 5) = Some d
                   ∧ edGeneration d ≠ generation (mkEntity 1 5)).
  { right. exists (mkEntityData 0 3). split; [reflexivity|]. cbn. lia. }
  split; [exact Hstale|].
  exact (invalid_entity_is_rejected (mkEntity 1 5) sample_world
           [("B", 9%Z)] ["A"] "A" Hstale).
Defined.

Lemma has_tests_mask_bit_witness :
  EntityManager_isValid (mkEntity 2 0) (mEntityManager sample_world) = true ∧
  mTypeToIds (mComponentManager sample_world) !! "B" = Some 2 ∧
  World_has "B" (mkEntity 2 0) sample_world
  = Ok (N.testbit (mask_at (mEntityManager sample_world) 2) 2, []) ∧
  ∀ storages,
    World_has "B" (mkEntity 2 0)
      (mkWorld (mResourceManager sample_world) (mEntityManager sample_world)
         (mkComponentManager (mTypeToIds (mComponentManager sample_world)) storages))
    = World_has "B" (mkEntity 2 0) sample_world.
Proof.
  assert (Hid : mTypeToIds (mComponentManager sample_world) !! "B" = Some 2)
    by by vm_compute.
  split_and!; [reflexivity|exact Hid|..];
    apply (has_tests_mask_bit "B" (mkEntity 2 0) sample_world 2 eq_refl Hid).
Defined.

Lemma registerResource_twice_keeps_first_witness :
  mResources (mResourceManager sample_world) !! "Settings" = None ∧
  (World_registerResource "Settings" 1%Z sample_world).2 = [] ∧
  World_read "Settings" (World_registerResource "Settings" 1%Z sample_world).1
  = Ok 1%Z ∧
  World_registerResource "Settings" 2%Z
    (World_registerResource "Settings" 1%Z sample_world).1
  = ((World_registerResource "Settings" 1%Z sample_world).1,
     [ResourceAlreadyRegistered "Settings"]) ∧
  World_read "Settings"
    (World_registerResource "Settings" 2%Z
       (World_registerResource "Settings" 1%Z sample_world).1).1 = Ok 1%Z ∧
  World_write "Settings"
    (World_registerResource "Settings" 2%Z
       (World_registerResource "Settings" 1%Z sample_world).1).1 = Ok 1%Z.
Proof.
  assert (Hfresh : mResources (mResourceManager sample_world) !! "Settings" = None)
    by by vm_compute.
  split; [exact Hfresh|].
  exact (registerResource_twice_keeps_first "Settings" 1%Z 2%Z sample_world Hfresh).
Defined.

Lemma generation_safety_witness :
  produced sample_world ∧
  World_isAlive (mkEntity 1 0) sample_world = true ∧
  World_create [("C", 7%Z)] (World_destroy (mkEntity 1 0) sample_world).1
  = Ok (created [("C", 7%Z)] (World_destroy (mkEntity 1 0) sample_world).1) ∧
  (created [("C", 7%Z)] (World_destroy (mkEntity 1 0) sample_world).1).1 = mkEntity 1 1 ∧
  World_isAlive (mkEntity 1 0)
    (created [("C", 7%Z)] (World_destroy (mkEntity 1 0) sample_world).1).2 = false ∧
  World_isAlive (mkEntity 1 1)
    (created [("C", 7%Z)] (World_destroy (mkEntity 1 0) sample_world).1).2 = true ∧
  (generation (mkEntity 1 0) < generation (mkEntity 1 1))%nat.
Proof.
  assert (Hcreate :
    World_create [("C", 7%Z)] (World_destroy (mkEntity 1 0) sample_world).1
    = Ok (mkEntity 1 1,
          (created [("C", 7%Z)] (World_destroy (mkEntity 1 0) sample_world).1).2))
    by by vm_compute.
  split_and!; [exact (reachable_produced _ _ sample_world_reachable)|reflexivity
              |by vm_compute|by vm_compute|..];
    eapply (proj2 (generation_safety sample_world (mkEntity 1 0))
              (reachable_produced _ _ sample_world_reachable) eq_refl _ _ (mkEntity 1 1) _
              (rtc_refl _ _) Hcreate eq_refl).
Defined.

Lemma pack_unpack_contract_witness :
  produced sample_world ∧
  World_isAlive (mkEntity 3 0) sample_world = true ∧
  World_isAlive (mkEntity 0 0) sample_world = true ∧
  (∃ ok w',
     World_unpack (mkEntity 0 0) [("A", 9%Z)] sample_world = Ok (ok, w', []) ∧
     World_isAlive (mkEntity 0 0) w' = true ∧
     ∀ T, is_Some (mTypeToIds (mComponentManager sample_world) !! T) →
          World_has T (mkEntity 0 0) w' = Ok (bool_decide (T ∈ [("A", 9%Z)].*1), []) ∧
          (T ∉ [("A", 9%Z)].*1 →
             ComponentManager_has T (index (mkEntity 0 0)) (mComponentManager w')
             = Ok false ∧
             ComponentManager_get T (index (mkEntity 0 0)) (mComponentManager w')
             = Ok None) ∧
          (T ∈ [("A", 9%Z)].*1 →
             ComponentManager_has T (index (mkEntity 0 0)) (mComponentManager w')
             = Ok true ∧
             ∃ v, (T, v) ∈ [("A", 9%Z)] ∧
                  ComponentManager_get T (index (mkEntity 0 0)) (mComponentManager w')
                  = Ok (Some v))) ∧
  (∃ w',
     World_unpack (mkEntity 0 0) (World_pack (mkEntity 3 0) sample_world) sample_world
     = Ok (true, w', []) ∧
     (∀ T, is_Some (mTypeToIds (mComponentManager sample_world) !! T) →
           World_has T (mkEntity 0 0) w' = World_has T (mkEntity 3 0) sample_world ∧
           (T ∉ (World_pack (mkEntity 3 0) sample_world).*1 →
              ComponentManager_has T (index (mkEntity 0 0)) (mComponentManager w')
              = Ok false ∧
              ComponentManager_get T (index (mkEntity 0 0)) (mComponentManager w')
              = Ok None)) ∧
     (∀ T v, (T, v) ∈ World_pack (mkEntity 3 0) sample_world →
             ComponentManager_get T (index (mkEntity 0 0)) (mComponentManager w')
             = Ok (Some v))).
Proof.
  pose proof (pack_unpack_contract sample_world (mkEntity 3 0) (mkEntity 0 0)
                (reachable_produced _ _ sample_world_reachable) eq_refl eq_refl)
    as (_ & _ & Hreplace & Hround).
  split_and!; [exact (reachable_produced _ _ sample_world_reachable)
              |reflexivity|reflexivity| |exact Hround].
  exact (Hreplace [("A", 9%Z)]).
Defined.

End Witnesses.

(** * Laws of the builder of [ConstructibleTrait] *)

Section BuilderLaws.
Import Reflection.
Context {Mem : Type}.
Implicit Types (t : ConstructibleTrait Mem).

(** X8.  The order of two different setters does not matter: either order
    yields the same trait, or both orders fail an assertion. *)
Theorem setters_commute t (cd : option (DefaultConstructor Mem))
    (cc : option (CopyConstructor Mem)) (cm : option (MoveConstructor Mem)) :
  same_outcome (t1 ←r withDefaultConstructor cd t;; withCopyConstructor cc t1)
               (t1 ←r withCopyConstructor cc t;; withDefaultConstructor cd t1) ∧
  same_outcome (t1 ←r withDefaultConstructor cd t;; withMoveConstructor cm t1)
               (t1 ←r withMoveConstructor cm t;; withDefaultConstructor cd t1) ∧
  same_outcome (t1 ←r withCopyConstructor cc t;; withMoveConstructor cm t1)
               (t1 ←r withMoveConstructor cm t;; withCopyConstructor cc t1).
Proof.
  destruct t as [sz al d [dc|] [cpy|] [mv|]]; by split_and!.
Qed.

Lemma setter_keeps t t' :
  setter t t' →
  mSize t' = mSize t ∧ mAlignment t' = mAlignment t ∧ mDestructor t' = mDestructor t ∧
  (∀ f, mDefaultConstructor t = Some f → mDefaultConstructor t' = Some f) ∧
  (∀ f, mCopyConstructor t = Some f → mCopyConstructor t' = Some f) ∧
  (∀ f, mMoveConstructor t = Some f → mMoveConstructor t' = Some f).
Proof.
  destruct 1 as [c t t' H|c t t' H|c t t' H]; destruct t as [sz al d dc cpy mv];
    unfold withDefaultConstructor, withCopyConstructor, withMoveConstructor,
      CUBOS_ASSERT in H; cbn in H.
  - destruct dc; cbn in H; [done|]. injection H as <-. by split_and!.
  - destruct cpy; cbn in H; [done|]. injection H as <-. by split_and!.
  - destruct mv; cbn in H; [done|]. injection H as <-. by split_and!.
Qed.

(** X9.  Whatever setters are called afterwards, a callback that is stored
    stays the stored one, so the construct function keeps calling it, and
    the size, the alignment and the destructor never change. *)
Theorem setters_never_replace t t' :
  rtc setter t t' →
  size t' = size t ∧ alignment t' = alignment t ∧
  (∀ instance mem, destruct t' instance mem = destruct t instance mem) ∧
  (∀ f, mDefaultConstructor t = Some f →
        ∀ instance mem, defaultConstruct t' instance mem = (true, f instance mem)) ∧
  (∀ f, mCopyConstructor t = Some f →
        ∀ instance other mem,
          copyConstruct t' instance other mem = (true, f instance other mem)) ∧
  (∀ f, mMoveConstructor t = Some f →
        ∀ instance other mem,
          moveConstruct t' instance other mem = (true, f instance other mem)).
Proof.
  intros Hrtc.
  assert (Hkeep : mSize t' = mSize t ∧ mAlignment t' = mAlignment t
                  ∧ mDestructor t' = mDestructor t ∧
    (∀ f, mDefaultConstructor t = Some f → mDefaultConstructor t' = Some f) ∧
    (∀ f, mCopyConstructor t = Some f → mCopyConstructor t' = Some f) ∧
    (∀ f, mMoveConstructor t = Some f → mMoveConstructor t' = Some f)).
  { induction Hrtc as [t|t1 t2 t3 H12 _ IH]; [done|].
    destruct (setter_keeps _ _ H12) as (Hs & Ha & Hd & Hdc & Hcc & Hmc).
    destruct IH as (Hs' & Ha' & Hd' & Hdc' & Hcc' & Hmc').
    split_and!; [congruence..|eauto|eauto|eauto]. }
  destruct Hkeep as (Hs & Ha & Hd & Hdc & Hcc & Hmc).
  unfold size, alignment, destruct, defaultConstruct, copyConstruct, moveConstruct.
  split_and!; [done|done|by rewrite Hd|..].
  - intros f Hf ??. by rewrite (Hdc f Hf).
  - intros f Hf ???. by rewrite (Hcc f Hf).
  - intros f Hf ???. by rewrite (Hmc f Hf).
Qed.

Lemma ConstructibleTrait_new_Ok_inv (sz al : N) (d : option (Destructor Mem)) t :
  al < SIZE_MOD →
  ConstructibleTrait_new sz al d = Ok t →
  (∃ k, al = 2 ^ k) ∧ is_Some d ∧ t = mkConstructibleTrait sz al d None None None.
Proof.
  intros Hlt. unfold ConstructibleTrait_new, CUBOS_ASSERT. cbn [mAlignment mDestructor].
  destruct (N.ltb_spec 0 al) as [Hpos|]; [|done].
  destruct (N.land al (size_sub al 1) =? 0) eqn:Htest; [|done].
  destruct d as [d|]; cbn; [|done]. intros [= <-].
  split_and!; [by apply power_of_two_test|eauto|done].
Qed.

(** X10.  Every trait that the constructor and the setters can build has
    an alignment that is a power of two below 2^64 and a destructor, so
    [destruct] never calls through a null pointer. *)
Theorem built_trait_is_sound t :
  built t →
  (∃ k, k < SIZE_BITS ∧ alignment t = 2 ^ k) ∧
  (∀ instance mem, ∃ mem', destruct t instance mem = Ok mem').
Proof.
  intros (sz & al & d & t0 & Hlt & Hnew & Hrtc).
  destruct (ConstructibleTrait_new_Ok_inv _ _ _ _ Hlt Hnew) as ([k Hk] & [dd ->] & ->).
  assert (Hkeep : mAlignment t = al ∧ mDestructor t = Some dd).
  { clear Hnew. remember (mkConstructibleTrait sz al (Some dd) None None None) as t0 eqn:E.
    assert (H0 : mAlignment t0 = al ∧ mDestructor t0 = Some dd) by by subst t0.
    clear E. induction Hrtc as [t|t1 t2 t3 H12 _ IH]; [done|].
    apply IH. destruct (setter_keeps _ _ H12) as (_ & Ha & Hd & _).
    destruct H0 as [<- <-]. done. }
  destruct Hkeep as [Ha Hd]. split.
  - exists k. split; [|by rewrite <- Hk].
    unfold SIZE_MOD in Hlt. rewrite Hk in Hlt.
    by apply N.pow_lt_mono_r_iff in Hlt.
  - intros instance mem. unfold destruct. rewrite Hd. eauto.
Qed.

(** X11.  The constructor names the first requirement that is violated,
    testing in this order: a zero alignment is reported as not positive
    (the bit test alone would let zero pass, as 0 - 1 wraps around); a
    positive alignment that is no power of two is reported as such; only
    then is a null destructor reported. *)
Theorem constructor_reports_first_violation (sz al : N) (d : option (Destructor Mem)) :
  al < SIZE_MOD →
  (al = 0 →
     ConstructibleTrait_new sz al d = Abort "Alignment must be positive"
     ∧ N.land al (size_sub al 1) = 0) ∧
  (0 < al → (∀ k, al ≠ 2 ^ k) →
     ConstructibleTrait_new sz al d = Abort "Alignment must be a power of two") ∧
  ((∃ k, al = 2 ^ k) → d = None →
     ConstructibleTrait_new sz al d = Abort "Destructor must be non-null").
Proof.
  intros Hlt. unfold ConstructibleTrait_new, CUBOS_ASSERT. cbn [mAlignment mDestructor].
  split_and!.
  - intros ->. done.
  - intros Hpos Hnp. apply N.ltb_lt in Hpos as Hpos'. rewrite Hpos'.
    destruct (N.land al (size_sub al 1) =? 0) eqn:Htest; [|done].
    apply power_of_two_test in Htest as [k Hk]; [|done..]. by destruct (Hnp k).
  - intros [k Hk] ->.
    assert (Hpos : 0 < al).
    { subst al. apply N.neq_0_lt_0, N.pow_nonzero. discriminate. }
    apply N.ltb_lt in Hpos as Hpos'. rewrite Hpos'.
    assert (Htest : (N.land al (size_sub al 1) =? 0) = true)
      by (apply power_of_two_test; eauto).
    by rewrite Htest.
Qed.

End BuilderLaws.

(** * Laws of the operations of [World] *)

Section WorldLaws.
Import Ecs.
Context {Data : Type}.
Implicit Types (w : World Data) (cm : ComponentManager Data) (em : EntityManager).
Implicit Types (e entity : Entity) (hs : list Entity) (T : string) (id : N) (i j idx : nat).

(** ** [add] and [remove] on a valid entity, written out *)

Lemma World_add_valid e (cs : list (string * Data)) w :
  EntityManager_isValid e (mEntityManager w) = true →
  World_add e cs w
  = (st ←r add_each (index e) cs (mask_at (mEntityManager w) (index e))
             (mComponentManager w);;
     Ok (mkWorld (mResourceManager w)
           (mkEntityManager
              (alter (fun d => mkEntityData (edGeneration d) st.1) (index e)
                 (mEntities (mEntityManager w)))
              (mAvailableEntities (mEntityManager w)))
           st.2, [])).
Proof.
  intros Hv. unfold World_add. rewrite Hv. cbn [negb]. rewrite getMask_valid by done.
  destruct (add_each _ _ _ _) as [st|]; cbn [res_bind]; [|done].
  by rewrite setMask_valid.
Qed.

Lemma World_remove_valid e (ts : list string) w :
  EntityManager_isValid e (mEntityManager w) = true →
  World_remove e ts w
  = (st ←r remove_each (index e) ts (mask_at (mEntityManager w) (index e))
             (mComponentManager w);;
     Ok (mkWorld (mResourceManager w)
           (mkEntityManager
              (alter (fun d => mkEntityData (edGeneration d) st.1) (index e)
                 (mEntities (mEntityManager w)))
              (mAvailableEntities (mEntityManager w)))
           st.2, [])).
Proof.
  intros Hv. unfold World_remove. rewrite Hv. cbn [negb]. rewrite getMask_valid by done.
  destruct (remove_each _ _ _ _) as [st|]; cbn [res_bind]; [|done].
  by rewrite setMask_valid.
Qed.

Lemma valid_index_lt e em :
  EntityManager_isValid e em = true → (index e < length (mEntities em))%nat.
Proof. intros (d & Hd & _)%isValid_true. by eapply lookup_lt_Some. Qed.

Lemma get_registered T idx cm id :
  mTypeToIds cm !! T = Some id →
  ComponentManager_get T idx cm = Ok (storage_of cm id !! idx).
Proof. intros HT. unfold ComponentManager_get, ComponentManager_getID. by rewrite HT. Qed.

(** ** What [add] and [remove] do to the entity they are called on *)

(** X1.  After [add] on a valid entity, [has] answers true for every
    component type given, and the storage of each holds one of the values
    given for it; for every other registered type, [has] and the stored
    value are what they were. *)
Theorem add_then_has e (cs : list (string * Data)) w w' ds T :
  produced w →
  EntityManager_isValid e (mEntityManager w) = true →
  World_add e cs w = Ok (w', ds) →
  is_Some (mTypeToIds (mComponentManager w) !! T) →
  (T ∈ cs.*1 →
     World_has T e w' = Ok (true, []) ∧
     ∃ v, (T, v) ∈ cs ∧
          ComponentManager_get T (index e) (mComponentManager w') = Ok (Some v)) ∧
  (T ∉ cs.*1 →
     World_has T e w' = World_has T e w ∧
     ComponentManager_get T (index e) (mComponentManager w')
     = ComponentManager_get T (index e) (mComponentManager w)).
Proof.
  intros Hprod Hv Hadd [id HT].
  destruct (produced_sound _ Hprod) as ((_ & Hinj & _) & _ & _).
  apply World_add_Ok in Hadd as [(Hnv & _)|(_ & _ & cm' & Hall & Hw')]; [congruence|].
  apply add_all_Ok in Hall as (Hreg & _ & _ & Hout & Hadded).
  pose proof (valid_index_lt _ _ Hv) as Hlt.
  assert (Hv' : EntityManager_isValid e (mEntityManager w') = true).
  { subst w'. cbn [mEntityManager]. by rewrite isValid_set_mask. }
  assert (HT' : mTypeToIds (mComponentManager w') !! T = Some id).
  { subst w'. cbn [mComponentManager]. by rewrite Hreg. }
  rewrite (World_has_valid T e w' id Hv' HT').
  rewrite (get_registered T _ _ id HT'), (get_registered T _ _ id HT).
  rewrite (World_has_valid T e w id Hv HT).
  subst w'. cbn [mEntityManager mComponentManager].
  rewrite mask_at_valid_slot_alter by done.
  assert (Hin_iff : id ∈ ids_of (mTypeToIds (mComponentManager w)) cs.*1 ↔ T ∈ cs.*1).
  { rewrite ids_of_registered. split.
    - intros (T' & HT'in & HT'id). by rewrite (Hinj T T' id HT HT'id).
    - intros Hin. eauto. }
  split.
  - intros Hin%Hin_iff. split.
    + do 2 f_equal. apply set_all_testbit. by right.
    + destruct (Hadded id Hin) as (T' & v & Hel & HT'id & ->).
      exists v. split; [|done]. by rewrite (Hinj T T' id HT HT'id).
  - intros Hnot. assert (Hn : id ∉ ids_of (mTypeToIds (mComponentManager w)) cs.*1)
      by by rewrite Hin_iff.
    rewrite (Hout id Hn). split; [|done]. do 2 f_equal.
    destruct (N.testbit (mask_at _ _) id) eqn:Hb.
    + apply set_all_testbit. by left.
    + apply not_true_is_false. intros [Hold|Hin]%set_all_testbit; [congruence|done].
Qed.

(** X2.  After [remove] on a valid entity, [has] answers false for every
    component type named and its storage holds no value for the entity;
    for every other registered type, [has] and the stored value are what
    they were. *)
Theorem remove_then_has e (ts : list string) w w' ds T :
  produced w →
  EntityManager_isValid e (mEntityManager w) = true →
  World_remove e ts w = Ok (w', ds) →
  is_Some (mTypeToIds (mComponentManager w) !! T) →
  (T ∈ ts →
     World_has T e w' = Ok (false, []) ∧
     ComponentManager_get T (index e) (mComponentManager w') = Ok None) ∧
  (T ∉ ts →
     World_has T e w' = World_has T e w ∧
     ComponentManager_get T (index e) (mComponentManager w')
     = ComponentManager_get T (index e) (mComponentManager w)).
Proof.
  intros Hprod Hv Hrem [id HT].
  destruct (produced_sound _ Hprod) as ((_ & Hinj & _) & _ & _).
  apply World_remove_Ok in Hrem as [(Hnv & _)|(_ & _ & m' & cm' & Hrem & Hw')];
    [congruence|].
  apply remove_each_Ok in Hrem as (Hreg & _ & _ & Hout & Hgone & Hmask).
  pose proof (valid_index_lt _ _ Hv) as Hlt.
  assert (Hv' : EntityManager_isValid e (mEntityManager w') = true).
  { subst w'. cbn [mEntityManager]. by rewrite isValid_set_mask. }
  assert (HT' : mTypeToIds (mComponentManager w') !! T = Some id).
  { subst w'. cbn [mComponentManager]. by rewrite Hreg. }
  rewrite (World_has_valid T e w' id Hv' HT').
  rewrite (get_registered T _ _ id HT'), (get_registered T _ _ id HT).
  rewrite (World_has_valid T e w id Hv HT).
  subst w'. cbn [mEntityManager mComponentManager].
  rewrite mask_at_valid_slot_alter by done.
  assert (Hin_iff : id ∈ ids_of (mTypeToIds (mComponentManager w)) ts ↔ T ∈ ts).
  { rewrite ids_of_registered. split.
    - intros (T' & HT'in & HT'id). by rewrite (Hinj T T' id HT HT'id).
    - intros Hin. eauto. }
  split.
  - intros Hin%Hin_iff. rewrite (Hgone id Hin). split; [|done]. do 2 f_equal.
    apply not_true_is_false. intros [_ Hn]%Hmask. done.
  - intros Hnot. assert (Hn : id ∉ ids_of (mTypeToIds (mComponentManager w)) ts)
      by by rewrite Hin_iff.
    rewrite (Hout id Hn). split; [|done]. do 2 f_equal.
    destruct (N.testbit (mask_at _ _) id) eqn:Hb.
    + by apply Hmask.
    + apply not_true_is_false. intros [Hold _]%Hmask. congruence.
Qed.

(** ** What [add] and [remove] leave alone *)

Lemma entities_from_alter (f : EntityData → EntityData) j i
    (ds : list EntityData) (free : list nat) :
  (∀ d, edGeneration (f d) = edGeneration d) →
  entities_from i (alter f j ds) free = entities_from i ds free.
Proof.
  intros Hf. revert i j. induction ds as [|d ds IH]; intros i j; [done|].
  destruct j as [|j]; cbn [alter list_alter entities_from].
  - by rewrite Hf.
  - f_equal. apply IH.
Qed.

Lemma isValid_alter_same_generation (f : EntityData → EntityData) h em idx fr :
  (∀ d, edGeneration (f d) = edGeneration d) →
  EntityManager_isValid h (mkEntityManager (alter f idx (mEntities em)) fr)
  = EntityManager_isValid h em.
Proof.
  intros Hf. unfold EntityManager_isValid. cbn [mEntities].
  destruct (decide (idx = index h)) as [->|Hne].
  - rewrite list_lookup_alter_eq. destruct (mEntities em !! index h); cbn; [|done].
    by rewrite Hf.
  - by rewrite list_lookup_alter_ne.
Qed.

Lemma same_elsewhere_refl idx w : same_elsewhere idx w w.
Proof. by split_and!. Qed.

(** X3.  [add] and [remove] touch one entity only: resources, registered
    IDs, the free list, the liveness of every handle and the entities that
    iteration yields stay as they are, and so do the mask and the stored
    components of every other index. *)
Theorem add_remove_frame e (cs : list (string * Data)) (ts : list string) w w' ds :
  World_add e cs w = Ok (w', ds) ∨ World_remove e ts w = Ok (w', ds) →
  same_elsewhere (index e) w w'.
Proof.
  intros [Hadd|Hrem].
  - apply World_add_Ok in Hadd as [(_ & -> & _)|(_ & _ & cm' & Hall & ->)];
      [apply same_elsewhere_refl|].
    apply add_all_Ok in Hall as (Hreg & _ & Hother & _ & _).
    unfold same_elsewhere, World_isAlive, EntityManager_entities.
    cbn [mResourceManager mEntityManager mComponentManager mEntities mAvailableEntities].
    split_and!; [done..| | |].
    + intros h. by apply isValid_alter_same_generation.
    + by apply entities_from_alter.
    + intros j Hj. split; [by apply mask_at_other_slot_alter|]. intros id. by apply Hother.
  - apply World_remove_Ok in Hrem as [(_ & -> & _)|(_ & _ & m' & cm' & Hrem & ->)];
      [apply same_elsewhere_refl|].
    apply remove_each_Ok in Hrem as (Hreg & _ & Hother & _ & _ & _).
    unfold same_elsewhere, World_isAlive, EntityManager_entities.
    cbn [mResourceManager mEntityManager mComponentManager mEntities mAvailableEntities].
    split_and!; [done..| | |].
    + intros h. by apply isValid_alter_same_generation.
    + by apply entities_from_alter.
    + intros j Hj. split; [by apply mask_at_other_slot_alter|]. intros id. by apply Hother.
Qed.

(** ** Splitting a call *)

Lemma add_each_app idx (cs1 cs2 : list (string * Data)) (m : N) cm :
  add_each idx (cs1 ++ cs2) m cm
  = (st ←r add_each idx cs1 m cm;; add_each idx cs2 st.1 st.2).
Proof.
  revert m cm. induction cs1 as [|[T v] cs1 IH]; intros m cm; [done|].
  cbn [app add_each].
  destruct (ComponentManager_getID T cm) as [id|]; cbn [res_bind]; [|done].
  destruct (ComponentManager_add T idx v cm) as [cm1|]; cbn [res_bind]; [|done].
  apply IH.
Qed.

Lemma remove_each_app idx (ts1 ts2 : list string) (m : N) cm :
  remove_each idx (ts1 ++ ts2) m cm
  = (st ←r remove_each idx ts1 m cm;; remove_each idx ts2 st.1 st.2).
Proof.
  revert m cm. induction ts1 as [|T ts1 IH]; intros m cm; [done|].
  cbn [app remove_each].
  destruct (ComponentManager_getID T cm) as [id|]; cbn [res_bind]; [|done].
  destruct (ComponentManager_remove T idx cm) as [cm1|]; cbn [res_bind]; [|done].
  apply IH.
Qed.

Lemma alter_set_mask_twice (m1 m2 : N) idx (ds : list EntityData) :
  alter (fun d => mkEntityData (edGeneration d) m2) idx
    (alter (fun d => mkEntityData (edGeneration d) m1) idx ds)
  = alter (fun d => mkEntityData (edGeneration d) m2) idx ds.
Proof.
  revert idx. induction ds as [|d ds IH]; intros idx; [done|].
  destruct idx as [|idx]; cbn [alter list_alter]; [done|]. f_equal. apply IH.
Qed.

(** X4.  On a valid entity, one [add] of several components is the same
    as [add]ing a first part of them and then the rest, and one [remove]
    of several types is the same as removing a first part and then the
    rest: the same world results, or the same assertion fails. *)
Theorem add_remove_split e (cs1 cs2 : list (string * Data)) (ts1 ts2 : list string) w :
  EntityManager_isValid e (mEntityManager w) = true →
  World_add e (cs1 ++ cs2) w = (r ←r World_add e cs1 w;; World_add e cs2 r.1) ∧
  World_remove e (ts1 ++ ts2) w = (r ←r World_remove e ts1 w;; World_remove e ts2 r.1).
Proof.
  intros Hv. pose proof (valid_index_lt _ _ Hv) as Hlt. split.
  - rewrite !(World_add_valid e _ w Hv), add_each_app.
    destruct (add_each (index e) cs1 _ _) as [[m1 cm1]|]; cbn [res_bind fst snd]; [|done].
    rewrite World_add_valid by (cbn [mEntityManager]; by rewrite isValid_set_mask).
    cbn [mEntityManager mComponentManager mResourceManager mEntities mAvailableEntities].
    rewrite mask_at_valid_slot_alter by done.
    destruct (add_each (index e) cs2 _ _) as [[m2 cm2]|]; cbn [res_bind fst snd]; [|done].
    by rewrite alter_set_mask_twice.
  - rewrite !(World_remove_valid e _ w Hv), remove_each_app.
    destruct (remove_each (index e) ts1 _ _) as [[m1 cm1]|]; cbn [res_bind fst snd];
      [|done].
    rewrite World_remove_valid by (cbn [mEntityManager]; by rewrite isValid_set_mask).
    cbn [mEntityManager mComponentManager mResourceManager mEntities mAvailableEntities].
    rewrite mask_at_valid_slot_alter by done.
    destruct (remove_each (index e) ts2 _ _) as [[m2 cm2]|]; cbn [res_bind fst snd];
      [|done].
    by rewrite alter_set_mask_twice.
Qed.

(** ** [create] with components *)

Lemma add_each_of_add_all idx (cs : list (string * Data)) (m : N) cm cm' :
  add_all idx cs cm = Ok cm' →
  add_each idx cs m cm = Ok (set_all (ids_of (mTypeToIds cm) cs.*1) m, cm').
Proof.
  revert m cm. induction cs as [|[T v] cs IH]; intros m cm; cbn [add_all add_each].
  - by intros [= <-].
  - destruct (ComponentManager_add T idx v cm) as [cm1|] eqn:Hadd; cbn [res_bind]; [|done].
    intros Hrest. pose proof Hadd as (id & HT & Hcm1)%ComponentManager_add_Ok.
    unfold ComponentManager_getID. rewrite HT. cbn [res_bind].
    rewrite (IH _ _ Hrest). subst cm1. cbn [mTypeToIds].
    unfold ids_of. cbn. by rewrite HT.
Qed.

Lemma create_handle_any_mask (m m' : N) em :
  (EntityManager_create m em).1 = (EntityManager_create m' em).1.
Proof. unfold EntityManager_create. by destruct (mAvailableEntities em). Qed.

Lemma alter_last (f : EntityData → EntityData) (ds : list EntityData) d :
  alter f (length ds) (ds ++ [d]) = ds ++ [f d].
Proof. induction ds as [|d0 ds IH]; cbn [length app alter list_alter]; [done|]. by f_equal. Qed.

Lemma create_then_set_mask (m0 m : N) em :
  free_in_range em →
  mkEntityManager
    (alter (fun d => mkEntityData (edGeneration d) m)
       (index (EntityManager_create m0 em).1)
       (mEntities (EntityManager_create m0 em).2))
    (mAvailableEntities (EntityManager_create m0 em).2)
  = (EntityManager_create m em).2.
Proof.
  intros Hfr. unfold EntityManager_create.
  destruct (mAvailableEntities em) as [|i rest] eqn:Hfree;
    cbn [fst snd index mEntities mAvailableEntities].
  - by rewrite alter_last.
  - by rewrite alter_set_mask_twice.
Qed.

(** X5.  Creating an entity with components is the same as creating it
    without any and then [add]ing the components to the handle: the same
    handle and the same world result. *)
Theorem create_is_create_then_add (cs : list (string * Data)) w e w' :
  produced w →
  World_create cs w = Ok (e, w') →
  ∃ w1, World_create [] w = Ok (e, w1) ∧ World_add e cs w1 = Ok (w', []).
Proof.
  intros Hprod (_ & cm' & Hadd & -> & ->)%World_create_Ok.
  pose proof (produced_free_in_range _ Hprod) as Hfr.
  set (m := set_all (0 :: ids_of (mTypeToIds (mComponentManager w)) cs.*1) 0).
  set (m0 := set_all [0] 0).
  exists (mkWorld (mResourceManager w) (EntityManager_create m0 (mEntityManager w)).2
            (mComponentManager w)).
  destruct (EntityManager_create_valid m0 _ Hfr) as [Hv0 Hm0].
  split.
  - unfold World_create. cbn [fmap list_fmap get_ids res_bind]. fold m0.
    destruct (EntityManager_create m0 (mEntityManager w)) as [e0 em0] eqn:Hc.
    cbn [add_all res_bind]. do 2 f_equal.
    rewrite (create_handle_any_mask m m0), Hc. done.
  - rewrite (create_handle_any_mask m m0). rewrite World_add_valid by done.
    cbn [mEntityManager mComponentManager mResourceManager].
    rewrite Hm0. rewrite (create_handle_any_mask m m0) in Hadd.
    rewrite (add_each_of_add_all _ _ m0 _ _ Hadd). cbn [res_bind fst snd].
    do 2 f_equal. by rewrite create_then_set_mask.
Qed.

(** ** Removing twice *)

Lemma clearbit_unset (m id : N) : N.testbit m id = false → N.clearbit m id = m.
Proof.
  intros Hb. apply N.bits_inj. intros n. rewrite N.clearbit_eqb.
  destruct (N.eqb_spec id n) as [->|_]; cbn; [by rewrite Hb|by rewrite andb_true_r].
Qed.

Lemma remove_each_keeps_storages idx (ts : list string) (m : N) cm m' cm' id :
  remove_each idx ts m cm = Ok (m', cm') →
  is_Some (mStorages cm !! id) ∨ id ∈ ids_of (mTypeToIds cm) ts →
  is_Some (mStorages cm' !! id).
Proof.
  revert m cm. induction ts as [|T ts IH]; intros m cm; cbn [remove_each].
  - intros [= <- <-] [H|H]; [done|]. by apply elem_of_nil in H.
  - unfold ComponentManager_getID at 1.
    destruct (mTypeToIds cm !! T) as [id0|] eqn:HT; cbn [res_bind]; [|done].
    destruct (ComponentManager_remove T idx cm) as [cm1|] eqn:Hrem; cbn [res_bind]; [|done].
    apply ComponentManager_remove_Ok in Hrem as (id0' & Hid0 & ->).
    assert (id0' = id0) as -> by congruence.
    intros Hrest Hor. apply (IH _ _ Hrest). cbn [mStorages mTypeToIds].
    rewrite lookup_insert. destruct (decide (id0 = id)) as [->|Hne]; [left; eauto|].
    destruct Hor as [H|H]; [by left|]. right.
    unfold ids_of in H. cbn in H. rewrite HT in H.
    apply elem_of_cons in H as [->|H]; [done|done].
Qed.

(** A [remove] of components that are not there changes nothing. *)
Lemma remove_each_nothing idx (ts : list string) (m : N) cm :
  Forall (fun T => ∃ id st, mTypeToIds cm !! T = Some id ∧ N.testbit m id = false
                            ∧ mStorages cm !! id = Some st ∧ st !! idx = None) ts →
  remove_each idx ts m cm = Ok (m, cm).
Proof.
  induction 1 as [|T ts (id & st & HT & Hb & Hst & Hidx) _ IH]; [done|].
  cbn [remove_each]. unfold ComponentManager_remove, ComponentManager_getID.
  rewrite HT. cbn [res_bind]. rewrite clearbit_unset by done.
  assert (Hcm : mkComponentManager (mTypeToIds cm)
                  (<[id := delete idx (storage_of cm id)]> (mStorages cm)) = cm).
  { unfold storage_of. rewrite Hst. cbn. rewrite delete_id by done.
    rewrite insert_id by done. by destruct cm. }
  by rewrite Hcm.
Qed.

(** X6.  [remove] is idempotent: calling it again with the same entity and
    the same types returns the world that the first call returned, and
    the same diagnostics. *)
Theorem remove_twice e (ts : list string) w w1 ds :
  World_remove e ts w = Ok (w1, ds) →
  World_remove e ts w1 = Ok (w1, ds).
Proof.
  intros Hrem. pose proof Hrem as [(Hnv & -> & ->)|(Hv & -> & m' & cm' & Hre & ->)]%World_remove_Ok.
  - done.
  - pose proof (valid_index_lt _ _ Hv) as Hlt.
    rewrite World_remove_valid by (cbn [mEntityManager]; by rewrite isValid_set_mask).
    cbn [mEntityManager mComponentManager mResourceManager mEntities mAvailableEntities].
    rewrite mask_at_valid_slot_alter by done.
    pose proof (remove_each_Ok _ _ _ _ _ _ Hre) as (Hreg & _ & _ & _ & Hgone & Hmask).
    rewrite remove_each_nothing.
    + cbn [res_bind fst snd]. by rewrite alter_set_mask_twice.
    + apply Forall_forall. intros T HT.
      assert (Hall : Forall (fun T => is_Some (mTypeToIds (mComponentManager w) !! T)) ts).
      { clear -Hre. revert Hre. generalize (mask_at (mEntityManager w) (index e)).
        generalize (mComponentManager w). induction ts as [|T ts IH]; intros cm m; [done|].
        cbn [remove_each]. unfold ComponentManager_getID at 1.
        destruct (mTypeToIds cm !! T) as [id0|] eqn:HT; cbn [res_bind]; [|done].
        destruct (ComponentManager_remove T _ cm) as [cm1|] eqn:Hrem; cbn [res_bind];
          [|done].
        apply ComponentManager_remove_Ok in Hrem as (id0' & Hid0 & ->).
        intros Hrest%IH. cbn [mTypeToIds] in Hrest. constructor; [by rewrite HT|done]. }
      rewrite Forall_forall in Hall. destruct (Hall T HT) as [id Hid].
      assert (Hin : id ∈ ids_of (mTypeToIds (mComponentManager w)) ts)
        by (apply ids_of_registered; eauto).
      destruct (remove_each_keeps_storages _ _ _ _ _ _ id Hre (or_intror Hin)) as [st Hst].
      exists id, st. split_and!.
      * by rewrite Hreg.
      * apply not_true_is_false. intros [_ Hn]%Hmask. done.
      * done.
      * pose proof (Hgone id Hin) as Hnone. unfold storage_of in Hnone.
        by rewrite Hst in Hnone.
Qed.

(** ** A new entity next to the live ones *)

Lemma create_index (m : N) em :
  index (EntityManager_create m em).1 ∈ mAvailableEntities em
  ∨ index (EntityManager_create m em).1 = length (mEntities em).
Proof.
  unfold EntityManager_create. destruct (mAvailableEntities em) as [|i rest]; cbn.
  - by right.
  - left. by left.
Qed.

Lemma create_lookup_other (m : N) em j :
  j ≠ index (EntityManager_create m em).1 →
  mEntities (EntityManager_create m em).2 !! j = mEntities em !! j.
Proof.
  unfold EntityManager_create.
  destruct (mAvailableEntities em) as [|i rest]; cbn [fst snd index mEntities]; intros Hj.
  - destruct (decide (j < length (mEntities em))%nat) as [Hlt|Hge].
    + by rewrite lookup_app_l.
    + rewrite (lookup_ge_None_2 (mEntities em)) by lia.
      rewrite lookup_ge_None_2; [done|]. rewrite length_app. cbn. lia.
  - by rewrite list_lookup_alter_ne.
Qed.

(** X7.  In a world reached by a run of [step], [create] returns a handle
    that is alive and whose index no live handle issued so far uses; every
    such live handle stays alive, and its mask and stored components are
    untouched. *)
Theorem create_is_fresh (cs : list (string * Data)) w hs e w' :
  reachable w hs →
  World_create cs w = Ok (e, w') →
  World_isAlive e w' = true ∧
  ∀ h, h ∈ hs → World_isAlive h w = true →
       index h ≠ index e ∧
       World_isAlive h w' = true ∧
       mask_at (mEntityManager w') (index h) = mask_at (mEntityManager w) (index h) ∧
       ∀ id, storage_of (mComponentManager w') id !! index h
             = storage_of (mComponentManager w) id !! index h.
Proof.
  intros Hreach (_ & cm' & Hadd & -> & ->)%World_create_Ok.
  destruct (reachable_inv _ _ Hreach) as (_ & _ & Hem).
  set (m := set_all (0 :: ids_of (mTypeToIds (mComponentManager w)) cs.*1) 0) in *.
  destruct (EntityManager_create_spec m _ _ Hem) as (_ & _ & Hothers & _ & Hvalid).
  apply add_all_Ok in Hadd as (_ & _ & Hother & _ & _).
  unfold World_isAlive. cbn [mEntityManager mComponentManager]. split; [done|].
  intros h Hin Hv.
  destruct (valid_handle_not_free _ _ _ Hem Hin Hv) as [Hnf Hlt].
  assert (Hne : index h ≠ index (EntityManager_create m (mEntityManager w)).1).
  { intros Heq. destruct (create_index m (mEntityManager w)) as [Hfree|Hlen].
    - apply Hnf. by rewrite Heq.
    - rewrite Heq, Hlen in Hlt. lia. }
  split_and!; [done| |by apply Hothers|intros id; by apply Hother].
  unfold EntityManager_isValid in *. by rewrite create_lookup_other.
Qed.

(** ** [has] and the stored value *)

(** X12.  In every world that calls of the members of [World] produce,
    whatever handles they were given, a [has] that answers true on a valid
    entity is backed by a stored value: [get] on the component's storage
    finds one. *)
Theorem has_implies_stored w e T :
  produced w →
  EntityManager_isValid e (mEntityManager w) = true →
  World_has T e w = Ok (true, []) →
  ∃ v, ComponentManager_get T (index e) (mComponentManager w) = Ok (Some v).
Proof.
  intros Hprod Hv Hhas.
  destruct (produced_sound _ Hprod) as ((Hrange & _ & _) & Hb & _).
  destruct (mTypeToIds (mComponentManager w) !! T) as [id|] eqn:HT.
  - rewrite (World_has_valid T e w id Hv HT) in Hhas. injection Hhas as Hbit.
    destruct (Hrange _ _ HT) as [Hpos _].
    destruct (Hb _ _ Hpos Hbit) as [v Hsome].
    exists v. by rewrite (get_registered T _ _ id HT), Hsome.
  - unfold World_has, ComponentManager_getID in Hhas. rewrite Hv, HT in Hhas. done.
Qed.

(** X13.  Right after [create], [has] on the new entity answers true for
    exactly the registered component types that were given, and the
    storage of each holds one of the values given for it. *)
Theorem create_then_has (cs : list (string * Data)) w e w' T :
  produced w →
  World_create cs w = Ok (e, w') →
  is_Some (mTypeToIds (mComponentManager w) !! T) →
  World_has T e w' = Ok (bool_decide (T ∈ cs.*1), []) ∧
  (T ∈ cs.*1 →
     ∃ v, (T, v) ∈ cs ∧
          ComponentManager_get T (index e) (mComponentManager w') = Ok (Some v)).
Proof.
  intros Hprod (_ & cm' & Hadd & Hw' & He)%World_create_Ok [id HT].
  destruct (produced_sound _ Hprod) as ((Hrange & Hinj & _) & _ & Hfr).
  set (m := set_all (0 :: ids_of (mTypeToIds (mComponentManager w)) cs.*1) 0) in *.
  destruct (EntityManager_create_valid m _ Hfr) as [Hvalid Hnew].
  apply add_all_Ok in Hadd as (Hreg & _ & _ & _ & Hadded).
  assert (Hv' : EntityManager_isValid e (mEntityManager w') = true) by by subst.
  assert (HT' : mTypeToIds (mComponentManager w') !! T = Some id).
  { subst w'. cbn [mComponentManager]. by rewrite Hreg. }
  assert (Hin_iff : id ∈ ids_of (mTypeToIds (mComponentManager w)) cs.*1 ↔ T ∈ cs.*1).
  { rewrite ids_of_registered. split.
    - intros (T' & HT'in & HT'id). by rewrite (Hinj T T' id HT HT'id).
    - intros Hin. eauto. }
  rewrite (World_has_valid T e w' id Hv' HT'), (get_registered T _ _ id HT').
  subst w' e. cbn [mEntityManager mComponentManager]. rewrite Hnew. split.
  - do 2 f_equal. apply bool_eq_bool_decide. unfold m.
    rewrite set_all_testbit, N.bits_0, elem_of_cons, <- Hin_iff.
    destruct (Hrange _ _ HT) as [Hpos _]. split; [|tauto].
    intros [[=]|[->|Hin]]; [lia|done].
  - intros Hin%Hin_iff. destruct (Hadded id Hin) as (T' & v & Hel & HT'id & ->).
    exists v. split; [|done]. by rewrite (Hinj T T' id HT HT'id).
Qed.

End WorldLaws.

(** * The laws at work on the sample worlds *)

Section LawWitnesses.
Import Ecs.

Lemma add_then_has_witness :
  produced sample_world ∧
  EntityManager_isValid (mkEntity 1 0) (mEntityManager sample_world) = true ∧
  World_add (mkEntity 1 0) [("B", 8%Z)] sample_world
  = Ok (added (mkEntity 1 0) [("B", 8%Z)] sample_world, []) ∧
  is_Some (mTypeToIds (mComponentManager sample_world) !! "B") ∧
  "B" ∈ [("B", 8%Z)].*1 ∧
  World_has "B" (mkEntity 1 0) (added (mkEntity 1 0) [("B", 8%Z)] sample_world)
  = Ok (true, []) ∧
  ∃ v, ("B", v) ∈ [("B", 8%Z)] ∧
       ComponentManager_get "B" (index (mkEntity 1 0))
         (mComponentManager (added (mkEntity 1 0) [("B", 8%Z)] sample_world))
       = Ok (Some v).
Proof.
  assert (Hadd : World_add (mkEntity 1 0) [("B", 8%Z)] sample_world
                 = Ok (added (mkEntity 1 0) [("B", 8%Z)] sample_world, []))
    by by vm_compute.
  assert (Hreg : is_Some (mTypeToIds (mComponentManager sample_world) !! "B")).
  { exists 2. by vm_compute. }
  assert (Hin : "B" ∈ [("B", 8%Z)].*1) by apply list_elem_of_here.
  split_and!; [exact (reachable_produced _ _ sample_world_reachable)|reflexivity
              |exact Hadd|exact Hreg|exact Hin|..];
    apply (proj1 (add_then_has (mkEntity 1 0) [("B", 8%Z)] sample_world _ [] "B"
                    (reachable_produced _ _ sample_world_reachable) eq_refl Hadd Hreg)
                 Hin).
Defined.

Lemma remove_then_has_witness :
  produced sample_world ∧
  EntityManager_isValid (mkEntity 0 0) (mEntityManager sample_world) = true ∧
  World_remove (mkEntity 0 0) ["A"] sample_world
  = Ok (removed (mkEntity 0 0) ["A"] sample_world, []) ∧
  is_Some (mTypeToIds (mComponentManager sample_world) !! "A") ∧
  "A" ∈ ["A"] ∧
  World_has "A" (mkEntity 0 0) (removed (mkEntity 0 0) ["A"] sample_world)
  = Ok (false, []) ∧
  ComponentManager_get "A" (index (mkEntity 0 0))
    (mComponentManager (removed (mkEntity 0 0) ["A"] sample_world)) = Ok None.
Proof.
  assert (Hrem : World_remove (mkEntity 0 0) ["A"] sample_world
                 = Ok (removed (mkEntity 0 0) ["A"] sample_world, []))
    by by vm_compute.
  assert (Hreg : is_Some (mTypeToIds (mComponentManager sample_world) !! "A")).
  { exists 1. by vm_compute. }
  assert (Hin : "A" ∈ ["A"]) by apply list_elem_of_here.
  split_and!; [exact (reachable_produced _ _ sample_world_reachable)|reflexivity
              |exact Hrem|exact Hreg|exact Hin|..];
    apply (proj1 (remove_then_has (mkEntity 0 0) ["A"] sample_world _ [] "A"
                    (reachable_produced _ _ sample_world_reachable) eq_refl Hrem Hreg)
                 Hin).
Defined.

Lemma add_remove_frame_witness :
  (World_add (mkEntity 1 0) [("B", 8%Z)] sample_world
   = Ok (added (mkEntity 1 0) [("B", 8%Z)] sample_world, [])
   ∨ World_remove (mkEntity 1 0) [] sample_world
     = Ok (added (mkEntity 1 0) [("B", 8%Z)] sample_world, [])) ∧
  same_elsewhere (index (mkEntity 1 0)) sample_world
    (added (mkEntity 1 0) [("B", 8%Z)] sample_world).
Proof.
  assert (Hadd : World_add (mkEntity 1 0) [("B", 8%Z)] sample_world
                 = Ok (added (mkEntity 1 0) [("B", 8%Z)] sample_world, [])
                 ∨ World_remove (mkEntity 1 0) [] sample_world
                   = Ok (added (mkEntity 1 0) [("B", 8%Z)] sample_world, [])).
  { left. by vm_compute. }
  split; [exact Hadd|].
  exact (add_remove_frame (mkEntity 1 0) [("B", 8%Z)] [] sample_world _ [] Hadd).
Defined.

Lemma add_remove_split_witness :
  EntityManager_isValid (mkEntity 2 0) (mEntityManager sample_world) = true ∧
  World_add (mkEntity 2 0) ([("A", 1%Z)] ++ [("C", 2%Z)]) sample_world
  = (r ←r World_add (mkEntity 2 0) [("A", 1%Z)] sample_world;;
     World_add (mkEntity 2 0) [("C", 2%Z)] r.1) ∧
  World_remove (mkEntity 2 0) (["B"] ++ ["A"]) sample_world
  = (r ←r World_remove (mkEntity 2 0) ["B"] sample_world;;
     World_remove (mkEntity 2 0) ["A"] r.1).
Proof.
  split; [reflexivity|].
  exact (add_remove_split (mkEntity 2 0) [("A", 1%Z)] [("C", 2%Z)] ["B"] ["A"]
           sample_world eq_refl).
Defined.

Lemma create_is_create_then_add_witness :
  produced sample_world ∧
  World_create [("A", 1%Z); ("C", 2%Z)] sample_world
  = Ok ((created [("A", 1%Z); ("C", 2%Z)] sample_world).1,
        (created [("A", 1%Z); ("C", 2%Z)] sample_world).2) ∧
  ∃ w1,
    World_create [] sample_world
    = Ok ((created [("A", 1%Z); ("C", 2%Z)] sample_world).1, w1) ∧
    World_add (created [("A", 1%Z); ("C", 2%Z)] sample_world).1
      [("A", 1%Z); ("C", 2%Z)] w1
    = Ok ((created [("A", 1%Z); ("C", 2%Z)] sample_world).2, []).
Proof.
  assert (Hc : World_create [("A", 1%Z); ("C", 2%Z)] sample_world
               = Ok ((created [("A", 1%Z); ("C", 2%Z)] sample_world).1,
                     (created [("A", 1%Z); ("C", 2%Z)] sample_world).2))
    by by vm_compute.
  split_and!; [exact (reachable_produced _ _ sample_world_reachable)|exact Hc|].
  exact (create_is_create_then_add [("A", 1%Z); ("C", 2%Z)] sample_world _ _
           (reachable_produced _ _ sample_world_reachable) Hc).
Defined.

Lemma remove_twice_witness :
  World_remove (mkEntity 0 0) ["A"; "C"] sample_world
  = Ok (removed (mkEntity 0 0) ["A"; "C"] sample_world, []) ∧
  World_remove (mkEntity 0 0) ["A"; "C"] (removed (mkEntity 0 0) ["A"; "C"] sample_world)
  = Ok (removed (mkEntity 0 0) ["A"; "C"] sample_world, []).
Proof.
  assert (Hrem : World_remove (mkEntity 0 0) ["A"; "C"] sample_world
                 = Ok (removed (mkEntity 0 0) ["A"; "C"] sample_world, []))
    by by vm_compute.
  split; [exact Hrem|].
  exact (remove_twice (mkEntity 0 0) ["A"; "C"] sample_world _ [] Hrem).
Defined.

Lemma create_is_fresh_witness :
  reachable sample_world sample_handles ∧
  World_create [("B", 1%Z)] sample_world
  = Ok ((created [("B", 1%Z)] sample_world).1, (created [("B", 1%Z)] sample_world).2) ∧
  World_isAlive (created [("B", 1%Z)] sample_world).1
    (created [("B", 1%Z)] sample_world).2 = true ∧
  ∀ h, h ∈ sample_handles → World_isAlive h sample_world = true →
       index h ≠ index (created [("B", 1%Z)] sample_world).1 ∧
       World_isAlive h (created [("B", 1%Z)] sample_world).2 = true ∧
       mask_at (mEntityManager (created [("B", 1%Z)] sample_world).2) (index h)
       = mask_at (mEntityManager sample_world) (index h) ∧
       ∀ id, storage_of (mComponentManager (created [("B", 1%Z)] sample_world).2) id
               !! index h
             = storage_of (mComponentManager sample_world) id !! index h.
Proof.
  assert (Hc : World_create [("B", 1%Z)] sample_world
               = Ok ((created [("B", 1%Z)] sample_world).1,
                     (created [("B", 1%Z)] sample_world).2))
    by by vm_compute.
  pose proof (create_is_fresh [("B", 1%Z)] sample_world sample_handles _ _
                sample_world_reachable Hc) as [Halive Hkeep].
  split; [exact sample_world_reachable|]. split; [exact Hc|].
  split; [exact Halive|exact Hkeep].
Defined.

Lemma has_implies_stored_witness :
  produced sample_world ∧
  EntityManager_isValid (mkEntity 3 0) (mEntityManager sample_world) = true ∧
  World_has "C" (mkEntity 3 0) sample_world = Ok (true, []) ∧
  ∃ v, ComponentManager_get "C" (index (mkEntity 3 0)) (mComponentManager sample_world)
       = Ok (Some v).
Proof.
  assert (Hhas : World_has "C" (mkEntity 3 0) sample_world = Ok (true, []))
    by by vm_compute.
  split_and!; [exact (reachable_produced _ _ sample_world_reachable)|reflexivity
              |exact Hhas|].
  exact (has_implies_stored sample_world (mkEntity 3 0) "C"
           (reachable_produced _ _ sample_world_reachable) eq_refl Hhas).
Defined.

Lemma create_then_has_witness :
  produced sample_registry ∧
  World_create [("A", 1%Z); ("C", 2%Z)] sample_registry
  = Ok ((created [("A", 1%Z); ("C", 2%Z)] sample_registry).1,
        (created [("A", 1%Z); ("C", 2%Z)] sample_registry).2) ∧
  is_Some (mTypeToIds (mComponentManager sample_registry) !! "B") ∧
  World_has "B" (created [("A", 1%Z); ("C", 2%Z)] sample_registry).1
    (created [("A", 1%Z); ("C", 2%Z)] sample_registry).2
  = Ok (bool_decide ("B" ∈ [("A", 1%Z); ("C", 2%Z)].*1), []).
Proof.
  assert (Hc : World_create [("A", 1%Z); ("C", 2%Z)] sample_registry
               = Ok ((created [("A", 1%Z); ("C", 2%Z)] sample_registry).1,
                     (created [("A", 1%Z); ("C", 2%Z)] sample_registry).2))
    by by vm_compute.
  assert (Hreg : is_Some (mTypeToIds (mComponentManager sample_registry) !! "B")).
  { exists 2. by vm_compute. }
  split_and!; [exact (reachable_produced _ _ sample_registry_reachable)|exact Hc
              |exact Hreg|].
  exact (proj1 (create_then_has [("A", 1%Z); ("C", 2%Z)] sample_registry _ _ "B"
                  (reachable_produced _ _ sample_registry_reachable) Hc Hreg)).
Defined.

End LawWitnesses.

Section BuilderWitnesses.
Import Reflection.

Lemma setters_never_replace_witness :
  rtc setter
    (mkConstructibleTrait (Mem := nat) 16 4 (Some (fun _ m => m))
       (Some (fun _ m => S m)) None None)
    (mkConstructibleTrait 16 4 (Some (fun _ m => m))
       (Some (fun _ m => S m)) (Some (fun _ _ m => m)) None) ∧
  ∀ instance mem,
    defaultConstruct
      (mkConstructibleTrait (Mem := nat) 16 4 (Some (fun _ m => m))
         (Some (fun _ m => S m)) (Some (fun _ _ m => m)) None) instance mem
    = (true, S mem).
Proof.
  assert (Hrtc : rtc setter
    (mkConstructibleTrait (Mem := nat) 16 4 (Some (fun _ m => m))
       (Some (fun _ m => S m)) None None)
    (mkConstructibleTrait 16 4 (Some (fun _ m => m))
       (Some (fun _ m => S m)) (Some (fun _ _ m => m)) None)).
  { apply rtc_once. by apply (set_copy (Some (fun _ _ m => m))). }
  split; [exact Hrtc|].
  exact (proj1 (proj2 (proj2 (proj2 (setters_never_replace _ _ Hrtc))))
           (fun _ m => S m) eq_refl).
Defined.

Lemma built_trait_is_sound_witness :
  built (mkConstructibleTrait (Mem := nat) 16 4 (Some (fun _ m => m)) None None None) ∧
  (∃ k, k < SIZE_BITS ∧
        alignment (mkConstructibleTrait (Mem := nat) 16 4 (Some (fun _ m => m))
                     None None None) = 2 ^ k) ∧
  (∀ instance mem, ∃ mem',
     destruct (mkConstructibleTrait (Mem := nat) 16 4 (Some (fun _ m => m))
                 None None None) instance mem = Ok mem').
Proof.
  assert (Hb : built (mkConstructibleTrait (Mem := nat) 16 4 (Some (fun _ m => m))
                        None None None)).
  { exists 16, 4, (Some (fun _ m => m)),
      (mkConstructibleTrait 16 4 (Some (fun _ m => m)) None None None).
    split; [reflexivity|]. split; [reflexivity|apply rtc_refl]. }
  split; [exact Hb|]. exact (built_trait_is_sound _ Hb).
Defined.

Lemma constructor_reports_first_violation_witness :
  6 < SIZE_MOD ∧
  ConstructibleTrait_new (Mem := nat) 16 6 None
  = Abort "Alignment must be a power of two".
Proof.
  split; [reflexivity|].
  apply (proj1 (proj2 (constructor_reports_first_violation (Mem := nat) 16 6 None
                         eq_refl))).
  - reflexivity.
  - intros k Hk. destruct (N.lt_ge_cases k 3) as [Hlt|Hge].
    + assert (Hcases : k = 0 ∨ k = 1 ∨ k = 2) by lia.
      destruct Hcases as [-> | [-> | ->]]; discriminate.
    + assert (2 ^ 3 ≤ 2 ^ k) by (apply N.pow_le_mono_r; lia).
      change (2 ^ 3) with 8 in *. lia.
Defined.

End BuilderWitnesses.
